(** * Time-accounting engine of the punch clock (src/utils/timeUtils.ts)

    A shallow embedding of [calculateDailyHours], [calculateMonthlyStats]
    and [groupRecordsByDay], together with the parts of the JavaScript
    runtime they lean on: the [Date] object (ECMA-262 time arithmetic with
    the host time zone as a parameter), [Array.prototype.sort] (stable, in
    place), [filter], [find], and a store of mutable arrays.

    Conventions of the embedding:
    - a time value (epoch milliseconds) is a [Z]; an invalid [Date] and the
      number NaN it yields are [None];
    - minutes are JavaScript numbers in the source; here they are exact
      rationals [Q], so rounding of binary floating point is not modelled;
    - an array of punch records lives in a store and is passed by
      reference, because [sort] and [push] update it in place. *)

From Stdlib Require Import ZArith QArith Qround Qabs List Bool Lia Permutation Sorted.
From Stdlib Require Import String Ascii DecimalString Decimal DecimalZ.
Import ListNotations.

Local Open Scope string_scope.
Local Open Scope list_scope.
Local Open Scope Z_scope.

(** ** ECMA-262 time arithmetic (section "Time Values and Time Range") *)

Module JSDate.

Definition msPerDay : Z := 86400000.
Definition msPerHour : Z := 3600000.
Definition msPerMinute : Z := 60000.

Definition Day (t : Z) : Z := t / msPerDay.

(** Days are counted in 400-year eras of 146097 days that start on
    1 March of a year divisible by 400; [719468] is the number of days from
    0000-03-01 to 1970-01-01. *)
Definition daysPerEra : Z := 146097.
Definition epochShift : Z := 719468.

(** Day of the era, in [0, 146096]. *)
Definition dayOfEra (day : Z) : Z := (day + epochShift) mod daysPerEra.
Definition eraOf (day : Z) : Z := (day + epochShift) / daysPerEra.

(** Year of the era (March-based), in [0, 399]. *)
Definition yearOfEra (doe : Z) : Z :=
  (doe - doe / 1460 + doe / 36524 - doe / 146096) / 365.

(** Day of the March-based year, in [0, 365]. *)
Definition dayOfMarchYear (doe : Z) : Z :=
  let yoe := yearOfEra doe in
  doe - (365 * yoe + yoe / 4 - yoe / 100).

(** March-based month, in [0, 11]: 0 is March, 11 is February. *)
Definition marchMonth (doe : Z) : Z := (5 * dayOfMarchYear doe + 2) / 153.

(** Day of the month, in [1, 31]; it depends on the day of the era only. *)
Definition dateOfEraDay (doe : Z) : Z :=
  dayOfMarchYear doe - (153 * marchMonth doe + 2) / 5 + 1.

(** Month as [getMonth] reports it: 0 is January. *)
Definition monthOfEraDay (doe : Z) : Z :=
  let mp := marchMonth doe in
  if mp <? 10 then mp + 2 else mp - 10.

Definition YearFromDay (day : Z) : Z :=
  let doe := dayOfEra day in
  let y := yearOfEra doe + eraOf day * 400 in
  if monthOfEraDay doe <=? 1 then y + 1 else y.

Definition YearFromTime (t : Z) : Z := YearFromDay (Day t).
Definition MonthFromTime (t : Z) : Z := monthOfEraDay (dayOfEra (Day t)).
Definition DateFromTime (t : Z) : Z := dateOfEraDay (dayOfEra (Day t)).
Definition HourFromTime (t : Z) : Z := (t / msPerHour) mod 24.
Definition MinFromTime (t : Z) : Z := (t / msPerMinute) mod 60.

(** The first day of month [mn] (0 is January, [0 <= mn < 12]) of year
    [ym]: its March-based year and month, its day of the era, its day
    number. *)
Definition marchYearOf (ym mn : Z) : Z := if mn <=? 1 then ym - 1 else ym.
Definition marchMonthOf (mn : Z) : Z := if mn <=? 1 then mn + 10 else mn - 2.

Definition monthStartInEra (yoe mp : Z) : Z :=
  yoe * 365 + yoe / 4 - yoe / 100 + (153 * mp + 2) / 5.

Definition dayFromMonthStart (ym mn : Z) : Z :=
  (marchYearOf ym mn / 400) * daysPerEra
  + monthStartInEra (marchYearOf ym mn mod 400) (marchMonthOf mn)
  - epochShift.

(** MakeDay(year, month, date): months outside [0, 11] carry into the year,
    and [date] is an offset from the first of the month, so that date 0 is
    the last day of the month before. *)
Definition MakeDay (year month date : Z) : Z :=
  let ym := year + month / 12 in
  let mn := month mod 12 in
  dayFromMonthStart ym mn + date - 1.

Definition MakeDate (day time : Z) : Z := day * msPerDay + time.

(** TimeClip: a time value further than 8.64e15 ms from the epoch is NaN. *)
Definition maxTime : Z := 8640000000000000.
Definition TimeClip (t : Z) : option Z :=
  if Z.abs t <=? maxTime then Some t else None.

End JSDate.

Import JSDate.

(** ** Bounded checks *)

(** [allFrom n z p]: [p] holds of [z], [z + 1], ..., [z + n - 1]. *)
Fixpoint allFrom (n : nat) (z : Z) (p : Z -> bool) : bool :=
  match n with
  | O => true
  | S k => if p z then allFrom k (z + 1) p else false
  end.

Definition allBelow (n : Z) (p : Z -> bool) : bool := allFrom (Z.to_nat n) 0 p.

(** *** A check of the calendar, month by month of the 400-year cycle *)

(** Year of the era, March-based month and day of the month of a day of
    the era, computed together. *)
Definition civilOfEraDay (doe : Z) : Z * Z * Z :=
  let yoe := (doe - doe / 1460 + doe / 36524 - doe / 146096) / 365 in
  let doy := doe - (365 * yoe + yoe / 4 - yoe / 100) in
  let mp := (5 * doy + 2) / 153 in
  (yoe, mp, doy - (153 * mp + 2) / 5 + 1).

(** The day of the month of the eve of the month after month [mp] of year
    [yoe] of the era: the number of days of that month. *)
Definition daysOfMonthInEra (yoe mp : Z) : Z :=
  let yoeN := if mp =? 11 then (yoe + 1) mod 400 else yoe in
  let mpN := if mp =? 11 then 0 else mp + 1 in
  dateOfEraDay ((monthStartInEra yoeN mpN - 1) mod daysPerEra).

(** Day [i] of the month that starts on day [start] of the era is in the
    era, in year [yoe], in month [mp], and is the [i]-th. *)
Definition dayOk (yoe mp start i : Z) : bool :=
  let doe := start + i - 1 in
  let '(y, m, d) := civilOfEraDay doe in
  (0 <=? doe) && (doe <? daysPerEra) && (y =? yoe) && (m =? mp) && (d =? i).

(** Month number [z] of the cycle: each of its days is in it, and the day
    after its last is a first of the month. *)
Definition monthOk (z : Z) : bool :=
  let yoe := z / 12 in
  let mp := z mod 12 in
  let start := monthStartInEra yoe mp in
  let n := daysOfMonthInEra yoe mp in
  allFrom (Z.to_nat n) 1 (dayOk yoe mp start)
  && (dateOfEraDay ((start + n) mod daysPerEra) =? 1).

(** ** Punch records (types.ts) *)

(** The enum [PunchType]: its members are the strings stored in a record. *)
Module PunchType.
Definition ENTRY : string := "ENTRADA".
Definition BREAK_START : string := "INÍCIO PAUSA".
Definition BREAK_END : string := "FIM PAUSA".
Definition EXIT : string := "SAÍDA".
End PunchType.

(** [calculateDailyHours] takes [any[]], so the [type] of a record is any
    string, not only a member of the enum. *)
Record PunchRecord : Type := mkPunch {
  id : string;
  timestamp : Z;
  type : string;
  note : option string
}.

(** The object literal [{ total, break }] returned by [calculateDailyHours]. *)
Record DailyHours : Type := mkDaily {
  total : Q;
  break : Q
}.

Record MonthlyStats : Type := mkMonthly {
  totalWorked : Q;
  totalBreak : Q;
  balance : Q;
  daysWorkedCount : Z
}.

(** One element of [groupedData]. *)
Record DayRow : Type := mkRow {
  day : string;
  dateFull : string;
  entrada : string;
  almocoSaida : string;
  almocoVolta : string;
  saida : string;
  totalHoras : string
}.

(** ** Numbers and strings *)

(** [a < b] on numbers. *)
Definition Qltb (a b : Q) : bool := negb (Qle_bool b a).

(** [String(n)] for an integer [n]. *)
Definition numToString (n : Z) : string := NilZero.string_of_int (Z.to_int n).

(** [n.toString().padStart(2, '0')], also what a '2-digit' field renders. *)
Definition pad2 (n : Z) : string :=
  let s := numToString n in
  if (String.length s <? 2)%nat then ("0" ++ s)%string else s.

(** [minutesToReadable]: [Math.floor(Math.abs(m) / 60)] hours and
    [Math.floor(Math.abs(m) % 60)] minutes; [%] is the remainder of the
    truncated quotient. *)
Definition minutesToReadable (totalMinutes : Q) : string :=
  let hours := Qfloor (Qabs totalMinutes / 60) in
  let minutes :=
    Qfloor (Qabs totalMinutes - 60 * inject_Z (Qfloor (Qabs totalMinutes / 60))) in
  let sign := if Qltb totalMinutes 0 then "-" else "" in
  (sign ++ numToString hours ++ "h " ++ numToString minutes ++ "m")%string.

(** ** Arrays of punch records *)

(** [records.sort((a, b) => a.timestamp - b.timestamp)]: the sort of
    ECMAScript is stable, and on integer timestamps the comparator is a
    consistent order, so the result is the stable ascending arrangement.
    Insertion from the right, ahead of the first element that is not
    smaller, computes it. *)
Fixpoint insertByTimestamp (r : PunchRecord) (l : list PunchRecord)
  : list PunchRecord :=
  match l with
  | [] => [r]
  | x :: l' =>
      if timestamp r <=? timestamp x then r :: x :: l'
      else x :: insertByTimestamp r l'
  end.

Fixpoint sortByTimestamp (l : list PunchRecord) : list PunchRecord :=
  match l with
  | [] => []
  | r :: l' => insertByTimestamp r (sortByTimestamp l')
  end.

(** A reference to an array, and the store of all arrays. *)
Definition ref : Type := nat.
Definition Store : Type := list (list PunchRecord).

Fixpoint setNth (a : nat) (v : list PunchRecord) (s : Store) : Store :=
  match s, a with
  | [], _ => []
  | _ :: s', O => v :: s'
  | x :: s', S a' => x :: setNth a' v s'
  end.

Definition contents (s : Store) (a : ref) : list PunchRecord := nth a s [].

(** Computations over the store. *)
Definition M (A : Type) : Type := Store -> A * Store.

Definition ret {A : Type} (x : A) : M A := fun s => (x, s).

Definition bind {A B : Type} (m : M A) (k : A -> M B) : M B :=
  fun s => let (x, s') := m s in k x s'.

Notation "x <- m ;; k" := (bind m (fun x => k))
  (at level 61, m at next level, right associativity).
Notation "m ;;; k" := (bind m (fun _ => k))
  (at level 61, right associativity).

Fixpoint foldM {A B : Type} (f : B -> A -> M B) (l : list A) (b : B) : M B :=
  match l with
  | [] => ret b
  | x :: l' => b' <- f b x ;; foldM f l' b'
  end.

Fixpoint mapM {A B : Type} (f : A -> M B) (l : list A) : M (list B) :=
  match l with
  | [] => ret []
  | x :: l' => y <- f x ;; ys <- mapM f l' ;; ret (y :: ys)
  end.

(** Reading an array (its elements, in order). *)
Definition readArr (a : ref) : M (list PunchRecord) :=
  fun s => (contents s a, s).

(** [[]] and every method that returns a new array allocate. *)
Definition newArr (l : list PunchRecord) : M ref :=
  fun s => (List.length s, s ++ [l]).

(** [a.sort(cmp)] reorders [a] itself and returns it. *)
Definition sortArr (a : ref) : M ref :=
  fun s => (a, setNth a (sortByTimestamp (contents s a)) s).

(** [a.filter(p)] returns a new array. *)
Definition filterArr (p : PunchRecord -> bool) (a : ref) : M ref :=
  l <- readArr a ;; newArr (filter p l).

(** [a.push(r)] appends to [a] itself. *)
Definition pushArr (a : ref) (r : PunchRecord) : M unit :=
  fun s => (tt, setNth a (contents s a ++ [r]) s).

(** [a.find(p)]. *)
Definition findArr (p : PunchRecord -> bool) (a : ref) : M (option PunchRecord) :=
  l <- readArr a ;; ret (find p l).

(** ** calculateDailyHours *)

(** The four [let] variables the [forEach] callback closes over. *)
Record DayAcc : Type := mkAcc {
  totalMinutes : Q;
  breakMinutes : Q;
  entryTime : option Z;
  breakStartTime : option Z
}.

Definition initialAcc : DayAcc := mkAcc 0 0 None None.

(** [if (x)] for [x : number | null]: null and 0 are falsy. *)
Definition truthy (x : option Z) : bool :=
  match x with
  | Some t => negb (t =? 0)
  | None => false
  end.

(** [x] where the test [if (x)] has passed (null would coerce to 0). *)
Definition numberOf (x : option Z) : Z :=
  match x with
  | Some t => t
  | None => 0
  end.

(** [(later - earlier) / 60000]. *)
Definition minutesBetween (later earlier : Z) : Q := (later - earlier) # 60000.

(** The body of the [switch]; a [type] that matches no [case] leaves the
    variables alone. *)
Definition onRecord (acc : DayAcc) (record : PunchRecord) : DayAcc :=
  let ts := timestamp record in
  if (type record =? PunchType.ENTRY)%string then
    mkAcc (totalMinutes acc) (breakMinutes acc) (Some ts) (breakStartTime acc)
  else if (type record =? PunchType.BREAK_START)%string then
    (* breakStartTime = record.timestamp; then the test of entryTime *)
    let acc1 :=
      mkAcc (totalMinutes acc) (breakMinutes acc) (entryTime acc) (Some ts) in
    if truthy (entryTime acc1) then
      mkAcc (totalMinutes acc1 + minutesBetween ts (numberOf (entryTime acc1)))
            (breakMinutes acc1) None (breakStartTime acc1)
    else acc1
  else if (type record =? PunchType.BREAK_END)%string then
    (* the test of breakStartTime; then entryTime = record.timestamp *)
    let acc1 :=
      if truthy (breakStartTime acc) then
        mkAcc (totalMinutes acc)
              (breakMinutes acc
               + minutesBetween ts (numberOf (breakStartTime acc)))
              (entryTime acc) None
      else acc in
    mkAcc (totalMinutes acc1) (breakMinutes acc1) (Some ts) (breakStartTime acc1)
  else if (type record =? PunchType.EXIT)%string then
    if truthy (entryTime acc) then
      mkAcc (totalMinutes acc + minutesBetween ts (numberOf (entryTime acc)))
            (breakMinutes acc) None (breakStartTime acc)
    else acc
  else acc.

Definition zeroHours : DailyHours := mkDaily 0 0.

Definition hoursOfAcc (acc : DayAcc) : DailyHours :=
  mkDaily (totalMinutes acc) (breakMinutes acc).

Definition calculateDailyHours (records : ref) : M DailyHours :=
  l <- readArr records ;;
  if (List.length l =? 0)%nat then ret zeroHours
  else
    sorted <- sortArr records ;;
    l' <- readArr sorted ;;
    ret (hoursOfAcc (fold_left onRecord l' initialAcc)).

(** What [calculateDailyHours] returns, as a function of the elements of
    the array it is given. *)
Definition dailyHours (l : list PunchRecord) : DailyHours :=
  hoursOfAcc (fold_left onRecord (sortByTimestamp l) initialAcc).

(** *** The daily aggregator as section 4.1 of the specification words it

    A second definition, written from the table of the specification and
    not from the source: two pending slots, [openEntry] and [openBreak],
    each either unset or holding a timestamp, and one row of the table per
    record type.  It is compared with [dailyHours] below. *)
Module DailySpec.

Record Slots : Type := mkSlots {
  worked : Q;
  paused : Q;
  openEntry : option Z;
  openBreak : option Z
}.

Definition initial : Slots := mkSlots 0 0 None None.

(** "if the slot is set: add (timestamp - slot)". *)
Definition closeInto (sum : Q) (slot : option Z) (ts : Z) : Q :=
  match slot with
  | Some opened => (sum + minutesBetween ts opened)%Q
  | None => sum
  end.

Definition step (st : Slots) (r : PunchRecord) : Slots :=
  let ts := timestamp r in
  if (type r =? PunchType.ENTRY)%string then
    mkSlots (worked st) (paused st) (Some ts) (openBreak st)
  else if (type r =? PunchType.BREAK_START)%string then
    mkSlots (closeInto (worked st) (openEntry st) ts) (paused st) None (Some ts)
  else if (type r =? PunchType.BREAK_END)%string then
    mkSlots (worked st) (closeInto (paused st) (openBreak st) ts) (Some ts) None
  else if (type r =? PunchType.EXIT)%string then
    mkSlots (closeInto (worked st) (openEntry st) ts) (paused st) None (openBreak st)
  else st.

Definition computeDaily (records : list PunchRecord) : DailyHours :=
  let st := fold_left step (sortByTimestamp records) initial in
  mkDaily (worked st) (paused st).

End DailySpec.

(** ** Dates and numbers that may be NaN *)

(** A [Date] object is its time value; [None] is an invalid date. *)
Definition Date : Type := option Z.

(** [new Date(value)]. *)
Definition newDate (value : Z) : Date := TimeClip value.

(** [a === b] on numbers: NaN equals nothing. *)
Definition strictEq (a b : option Z) : bool :=
  match a, b with
  | Some x, Some y => x =? y
  | _, _ => false
  end.

(** ** Grouping, as a function of the elements *)

(** Groups in the order their keys first appear, each group in the order
    of the input: what a loop of "look the key up, create the group if it
    is new, append" builds. *)
Section GroupBy.

Variables (A K : Type) (eqb : K -> K -> bool) (key : A -> K).

Fixpoint addToGroup (k : K) (x : A) (G : list (K * list A)) : list (K * list A) :=
  match G with
  | [] => [(k, [x])]
  | (k', g) :: G' =>
      if eqb k k' then (k', g ++ [x]) :: G' else (k', g) :: addToGroup k x G'
  end.

Definition groupBy (l : list A) : list (K * list A) :=
  fold_left (fun G x => addToGroup (key x) x G) l [].

End GroupBy.

Arguments addToGroup {A K} eqb k x G.
Arguments groupBy {A K} eqb key l.

(** ** The host: time zone and default locale *)

(** [LocalTZA t isUTC] is the offset of local time from UTC in
    milliseconds, as in ECMA-262: at the UTC time [t] when [isUTC], at the
    local time [t] otherwise.  [hostDateString year month date] is what
    [toLocaleDateString()] renders, in the default locale of the host, for
    a local calendar date ([month] counted from 0). *)
Class Host : Type := mkHost {
  LocalTZA : Z -> bool -> Z;
  hostDateString : Z -> Z -> Z -> string
}.

Section Engine.

Context {host : Host}.

Definition LocalTime (t : Z) : Z := t + LocalTZA t true.
Definition UTC (t : Z) : Z := t - LocalTZA t false.

(** The year that the constructor of [Date] reads: from 0 to 99 it means
    1900 + year. *)
Definition fullYearOf (year : Z) : Z :=
  if (0 <=? year) && (year <=? 99) then 1900 + year else year.

(** [new Date(year, month, date)]: local midnight of that day. *)
Definition newDateYMD (year month date : Z) : Date :=
  TimeClip (UTC (MakeDate (MakeDay (fullYearOf year) month date) 0)).

Definition getFullYear (d : Date) : option Z :=
  option_map (fun t => YearFromTime (LocalTime t)) d.
Definition getMonth (d : Date) : option Z :=
  option_map (fun t => MonthFromTime (LocalTime t)) d.
Definition getDate (d : Date) : option Z :=
  option_map (fun t => DateFromTime (LocalTime t)) d.

(** [d.toLocaleDateString()], in the default locale. *)
Definition toLocaleDateString (d : Date) : string :=
  match d with
  | Some t =>
      hostDateString (YearFromTime (LocalTime t)) (MonthFromTime (LocalTime t))
                     (DateFromTime (LocalTime t))
  | None => "Invalid Date"
  end.

(** [d.toLocaleDateString('pt-BR')]: day/month/year, two digits for day
    and month; a year before 1 is rendered as its year of the era. *)
Definition toLocaleDateStringPtBR (d : Date) : string :=
  match d with
  | Some t =>
      let y := YearFromTime (LocalTime t) in
      let dd := pad2 (DateFromTime (LocalTime t)) in
      let mm := pad2 (MonthFromTime (LocalTime t) + 1) in
      let yyyy := numToString (if 0 <? y then y else 1 - y) in
      (dd ++ "/" ++ mm ++ "/" ++ yyyy)%string
  | None => "Invalid Date"
  end.

(** [d.toLocaleTimeString('pt-BR', {hour: '2-digit', minute: '2-digit'})]. *)
Definition toLocaleTimeStringPtBR (d : Date) : string :=
  match d with
  | Some t =>
      let hh := pad2 (HourFromTime (LocalTime t)) in
      let mm := pad2 (MinFromTime (LocalTime t)) in
      (hh ++ ":" ++ mm)%string
  | None => "Invalid Date"
  end.

(** *** calculateMonthlyStats *)

(** The object [days]: its own keys in insertion order, each with the
    array it refers to.  The keys are date strings: none is an array index
    or a name inherited from [Object.prototype], so a lookup sees the own
    keys only and [Object.values] follows the order of insertion. *)
Definition DaysObject : Type := list (string * ref).

Fixpoint lookupKey (k : string) (days : DaysObject) : option ref :=
  match days with
  | [] => None
  | (k', a) :: days' => if (k =? k')%string then Some a else lookupKey k days'
  end.

(** The predicate of [records.filter] in [calculateMonthlyStats]. *)
Definition inTargetMonth (targetMonth targetYear : option Z) (r : PunchRecord)
  : bool :=
  let d := newDate (timestamp r) in
  strictEq (getMonth d) targetMonth && strictEq (getFullYear d) targetYear.

Definition dayKey (r : PunchRecord) : string :=
  toLocaleDateString (newDate (timestamp r)).

(** The callback of [monthRecords.forEach]. *)
Definition groupRecord (days : DaysObject) (r : PunchRecord) : M DaysObject :=
  match lookupKey (dayKey r) days with
  | Some a => pushArr a r ;;; ret days
  | None =>
      a <- newArr [] ;;
      pushArr a r ;;;
      ret (days ++ [(dayKey r, a)])
  end.

(** [totalWorked], [totalBreak] and [daysWorkedCount]. *)
Definition MonthAcc : Type := (Q * Q * Z)%type.

(** The callback of [Object.values(days).forEach]. *)
Definition addDay (acc : MonthAcc) (stats : DailyHours) : MonthAcc :=
  let '(worked, brk, n) := acc in
  ((worked + total stats)%Q, (brk + break stats)%Q,
   if Qltb 0 (total stats) then n + 1 else n).

Definition statsOfAcc (acc : MonthAcc) (dailyWorkload : Q) : MonthlyStats :=
  let '(worked, brk, n) := acc in
  mkMonthly worked brk (worked - inject_Z n * dailyWorkload)%Q n.

(** The first half of [calculateMonthlyStats]: the filter and the grouping
    loop, up to the finished object [days]. *)
Definition dayGroups (records : ref) (currentMonthDate : Date) : M DaysObject :=
  let targetMonth := getMonth currentMonthDate in
  let targetYear := getFullYear currentMonthDate in
  monthRecords <- filterArr (inTargetMonth targetMonth targetYear) records ;;
  l <- readArr monthRecords ;;
  foldM groupRecord l [].

Definition calculateMonthlyStats
  (records : ref) (currentMonthDate : Date) (dailyWorkload : Q) : M MonthlyStats :=
  days <- dayGroups records currentMonthDate ;;
  acc <- foldM (fun acc dayRecords =>
                  stats <- calculateDailyHours dayRecords ;;
                  ret (addDay acc stats))
               (map snd days) (0%Q, 0%Q, 0) ;;
  ret (statsOfAcc acc dailyWorkload).

(** *** groupRecordsByDay *)

(** The values [i] takes in [for (let i = 1; i <= daysInMonth; i++)]. *)
Definition loopDays (daysInMonth : option Z) : list Z :=
  match daysInMonth with
  | Some n => map Z.of_nat (seq 1 (Z.to_nat n))
  | None => []
  end.

(** The predicate of [records.filter] in [groupRecordsByDay]. *)
Definition onDay (i targetMonth targetYear : Z) (r : PunchRecord) : bool :=
  let d := newDate (timestamp r) in
  strictEq (getDate d) (Some i) && strictEq (getMonth d) (Some targetMonth)
  && strictEq (getFullYear d) (Some targetYear).

Definition hasType (t : string) (r : PunchRecord) : bool := (type r =? t)%string.

(** [x ? new Date(x.timestamp).toLocaleTimeString('pt-BR', ...) : '']. *)
Definition cell (found : option PunchRecord) : string :=
  match found with
  | Some r => toLocaleTimeStringPtBR (newDate (timestamp r))
  | None => ""
  end.

(** [new Date(targetYear, targetMonth + 1, 0).getDate()]: the day of the
    month of the eve of the next month. *)
Definition daysInMonth (targetMonth targetYear : Z) : option Z :=
  getDate (newDateYMD targetYear (targetMonth + 1) 0).

(** The body of the [for] loop. *)
Definition buildRow (records : ref) (targetMonth targetYear i : Z) : M DayRow :=
  let dayDate := newDateYMD targetYear targetMonth i in
  dayRecords <- filterArr (onDay i targetMonth targetYear) records ;;
  sortArr dayRecords ;;;
  entrada <- findArr (hasType PunchType.ENTRY) dayRecords ;;
  almocoSaida <- findArr (hasType PunchType.BREAK_START) dayRecords ;;
  almocoVolta <- findArr (hasType PunchType.BREAK_END) dayRecords ;;
  saida <- findArr (hasType PunchType.EXIT) dayRecords ;;
  stats <- calculateDailyHours dayRecords ;;
  ret (mkRow (pad2 i)
             (toLocaleDateStringPtBR dayDate)
             (cell entrada) (cell almocoSaida) (cell almocoVolta) (cell saida)
             (minutesToReadable (total stats))).

Definition groupRecordsByDay (records : ref) (targetMonth targetYear : Z)
  : M (list DayRow) :=
  mapM (buildRow records targetMonth targetYear)
       (loopDays (daysInMonth targetMonth targetYear)).

(** *** What the three functions return, as functions of the elements *)

(** The local calendar date of a time value: year, month from 0, day. *)
Definition localDate (t : Z) : Z * Z * Z :=
  (YearFromTime (LocalTime t), MonthFromTime (LocalTime t), DateFromTime (LocalTime t)).

(** No date for a timestamp outside the range of [Date]. *)
Definition localDateOf (t : Z) : option (Z * Z * Z) :=
  option_map localDate (TimeClip t).

Definition dateEqb (a b : Z * Z * Z) : bool :=
  let '(y1, m1, d1) := a in
  let '(y2, m2, d2) := b in
  (y1 =? y2) && (m1 =? m2) && (d1 =? d2).

Definition monthRecordsOf (l : list PunchRecord) (currentMonthDate : Date)
  : list PunchRecord :=
  filter (inTargetMonth (getMonth currentMonthDate) (getFullYear currentMonthDate)) l.

(** The own properties of [days], each with the elements of its array. *)
Definition keyGroups (l : list PunchRecord) (currentMonthDate : Date)
  : list (string * list PunchRecord) :=
  groupBy String.eqb dayKey (monthRecordsOf l currentMonthDate).

Definition monthlyStats (l : list PunchRecord) (currentMonthDate : Date)
  (dailyWorkload : Q) : MonthlyStats :=
  statsOfAcc
    (fold_left addDay
       (map (fun g => dailyHours (snd g)) (keyGroups l currentMonthDate))
       (0%Q, 0%Q, 0))
    dailyWorkload.

(** [dayRecords] after its [sort]. *)
Definition dayRecordsOf (l : list PunchRecord) (targetMonth targetYear i : Z)
  : list PunchRecord :=
  sortByTimestamp (filter (onDay i targetMonth targetYear) l).

Definition rowOf (l : list PunchRecord) (targetMonth targetYear i : Z) : DayRow :=
  let dayRecords := dayRecordsOf l targetMonth targetYear i in
  mkRow (pad2 i)
        (toLocaleDateStringPtBR (newDateYMD targetYear targetMonth i))
        (cell (find (hasType PunchType.ENTRY) dayRecords))
        (cell (find (hasType PunchType.BREAK_START) dayRecords))
        (cell (find (hasType PunchType.BREAK_END) dayRecords))
        (cell (find (hasType PunchType.EXIT) dayRecords))
        (minutesToReadable (total (dailyHours dayRecords))).

(** *** The monthly aggregator as section 4.2 of the specification words it

    A second definition, written from the specification: keep the records
    of the target local month and year, group them by local calendar day,
    run the daily aggregator on each group, add the results up, count the
    groups with a total above zero, and charge the target for those. *)
Definition inMonthOf (referenceDate : Date) (r : PunchRecord) : bool :=
  match localDateOf (timestamp r), option_map localDate referenceDate with
  | Some (y, m, _), Some (ty, tm, _) => (m =? tm) && (y =? ty)
  | _, _ => false
  end.

Definition computeMonthly_spec (records : list PunchRecord) (referenceDate : Date)
  (dailyTarget : Q) : MonthlyStats :=
  let monthRecords := filter (inMonthOf referenceDate) records in
  let groups :=
    map snd (groupBy dateEqb (fun r => localDate (timestamp r)) monthRecords) in
  let daily := map dailyHours groups in
  let worked := fold_left Qplus (map total daily) 0%Q in
  let paused := fold_left Qplus (map break daily) 0%Q in
  let count := Z.of_nat (List.length (filter (fun d => Qltb 0 (total d)) daily)) in
  mkMonthly worked paused (worked - inject_Z count * dailyTarget)%Q count.

End Engine.

(** ** Predicates used in the statements *)

(** Ascending timestamps. *)
Definition tsLe (a b : PunchRecord) : Prop := timestamp a <= timestamp b.

(** The [type] of the record is one of the four the [switch] handles. *)
Definition recognised (r : PunchRecord) : bool :=
  ((type r =? PunchType.ENTRY) || (type r =? PunchType.BREAK_START)
   || (type r =? PunchType.BREAK_END) || (type r =? PunchType.EXIT))%string.

(** The variables of [calculateDailyHours] and the slots of the
    specification hold the same values, and no slot holds timestamp 0. *)
Definition sameSlots (acc : DayAcc) (st : DailySpec.Slots) : Prop :=
  totalMinutes acc = DailySpec.worked st
  /\ breakMinutes acc = DailySpec.paused st
  /\ entryTime acc = DailySpec.openEntry st
  /\ breakStartTime acc = DailySpec.openBreak st
  /\ entryTime acc <> Some 0
  /\ breakStartTime acc <> Some 0.

(** The object [days] once the groups [G] have been built in arrays
    allocated one after the other from address [base] on. *)
Definition daysOf (base : nat) (G : list (string * list PunchRecord)) : DaysObject :=
  combine (map fst G) (seq base (List.length G)).

(** Two groups, under two different keys, with the same elements. *)
Definition sameGroup {A K1 K2 : Type} (key1 : A -> K1) (key2 : A -> K2)
  (seen : list A) (p : K1 * list A) (q : K2 * list A) : Prop :=
  snd p = snd q /\ snd p <> []
  /\ forall y, In y (snd p) -> In y seen /\ key1 y = fst p /\ key2 y = fst q.

(** ** Assumptions on the host, and a host that meets them *)

(** The default locale renders two different days of one month
    differently. *)
Definition tellsDaysApart (host : Host) : Prop :=
  forall y m d d' : Z,
    1 <= d <= 31 -> 1 <= d' <= 31 ->
    hostDateString y m d = hostDateString y m d' -> d = d'.

(** Local time is never more than a day away from UTC, and local midnight
    of a day, converted to UTC and read back in local time, still falls on
    that day (a clock change at midnight moves the hour, not the date). *)
Definition keepsMidnightOnItsDay (host : Host) : Prop :=
  (forall t b, Z.abs (LocalTZA t b) <= msPerDay)
  /\ (forall d, Day (LocalTime (UTC (MakeDate d 0))) = d).

(** Brasilia time (UTC-3 all year) with dates as pt-BR writes them. *)
Definition brasiliaHost : Host :=
  mkHost (fun _ _ => -10800000)
         (fun y m d => (pad2 d ++ "/" ++ pad2 (m + 1) ++ "/" ++ numToString y)%string).

(** Two records share an array of the object [days]. *)
Definition inSameGroup (days : DaysObject) (s : Store) (r1 r2 : PunchRecord) : Prop :=
  exists k a, In (k, a) days /\ In r1 (contents s a) /\ In r2 (contents s a).

(** ** What a row shows *)

Section RowStatements.

Context {host : Host}.

(** "HH:MM" in local time. *)
Definition hhmm (t : Z) : string :=
  (pad2 (HourFromTime (LocalTime t)) ++ ":" ++ pad2 (MinFromTime (LocalTime t)))%string.

(** The record falls on the local calendar date [d] = (year, month, day). *)
Definition onLocalDate (d : Z * Z * Z) (r : PunchRecord) : bool :=
  match localDateOf (timestamp r) with
  | Some d' => dateEqb d' d
  | None => false
  end.

(** The cell [c] shows the time of an earliest record of type [ty] among
    [l], and is empty when [l] has no record of that type. *)
Definition showsEarliest (l : list PunchRecord) (ty : string) (c : string) : Prop :=
  (forall r, In r l -> type r = ty ->
     (forall r', In r' l -> type r' = ty -> timestamp r <= timestamp r') ->
     c = hhmm (timestamp r))
  /\ ((forall r, In r l -> type r <> ty) -> c = "").

(** The row shows day [i] of the month for the records [l]. *)
Definition rowShows (l : list PunchRecord) (targetMonth targetYear i : Z)
  (row : DayRow) : Prop :=
  let dayRecords := filter (onLocalDate (targetYear, targetMonth, i)) l in
  showsEarliest dayRecords PunchType.ENTRY (entrada row)
  /\ showsEarliest dayRecords PunchType.BREAK_START (almocoSaida row)
  /\ showsEarliest dayRecords PunchType.BREAK_END (almocoVolta row)
  /\ showsEarliest dayRecords PunchType.EXIT (saida row)
  /\ totalHoras row = minutesToReadable (total (dailyHours dayRecords)).

End RowStatements.

(** ** A day of punches, for the examples

    15 March 2024 in Brasilia: exit at 18:00, entry at 09:00, end of the
    break at 13:00 and its start at 12:00, stored in that order, and an
    entry at 09:00 the next day. *)
Definition sampleRecords : list PunchRecord :=
  [mkPunch "4" 1710536400000 PunchType.EXIT None;
   mkPunch "1" 1710504000000 PunchType.ENTRY None;
   mkPunch "3" 1710518400000 PunchType.BREAK_END None;
   mkPunch "2" 1710514800000 PunchType.BREAK_START None;
   mkPunch "5" 1710590400000 PunchType.ENTRY None].

Definition sampleDate : Date := Some 1710504000000.

(** A punch [h] hours after 00:00 UTC of 15 March 2024. *)
Definition punchAtHour (h : Z) (ty : string) : PunchRecord :=
  mkPunch "" (1710460800000 + h * 3600000) ty None.

(** Either side of a midnight in Brasilia: an exit at 23:59 of 15 March
    2024 and an entry at 00:01 of 16 March. *)
Definition lateExit : PunchRecord := mkPunch "6" 1710557940000 PunchType.EXIT None.
Definition earlyEntry : PunchRecord := mkPunch "7" 1710558060000 PunchType.ENTRY None.

(** Two entries before one exit, in Brasilia: entries at 08:00 and 09:00
    and an exit at 17:00 of 15 March 2024. *)
Definition duplicateEntryDay : list PunchRecord :=
  [punchAtHour 11 PunchType.ENTRY; punchAtHour 12 PunchType.ENTRY;
   punchAtHour 20 PunchType.EXIT].

(* ================================================================== *)
(** * The rest of timeUtils.ts, and the callers in App.tsx *)

(** ** Strings *)

(** The line feed, and U+FEFF as the three bytes a [Blob] writes for it. *)
Definition lineFeed : string := String "010"%char EmptyString.
Definition byteOrderMark : string :=
  String "239"%char (String "187"%char (String "191"%char EmptyString)).

(** [s.split(c)] for a separator [c] of one character. *)
Fixpoint splitOn (c : ascii) (s : string) : list string :=
  match s with
  | EmptyString => [EmptyString]
  | String a s' =>
      if Ascii.eqb a c then EmptyString :: splitOn c s'
      else
        match splitOn c s' with
        | x :: l => String a x :: l
        | [] => [String a EmptyString]
        end
  end.

(** The character [c] does not occur in [s]. *)
Fixpoint lacks (c : ascii) (s : string) : bool :=
  match s with
  | EmptyString => true
  | String a s' => negb (Ascii.eqb a c) && lacks c s'
  end.

(** [String(n).padStart(width, '0')]. *)
Fixpoint zeros (n : nat) : string :=
  match n with
  | O => EmptyString
  | S k => String "0"%char (zeros k)
  end.

Definition padZeros (width : nat) (n : Z) : string :=
  let s := numToString n in
  (zeros (width - String.length s) ++ s)%string.

(** ** toISOString *)

Definition SecFromTime (t : Z) : Z := (t / 1000) mod 60.
Definition msFromTime (t : Z) : Z := t mod 1000.

(** The year of the ISO format: four digits from 0 to 9999, a sign and six
    digits outside. *)
Definition isoYear (y : Z) : string :=
  if (0 <=? y) && (y <=? 9999) then padZeros 4 y
  else
    let sign := if y <? 0 then "-" else "+" in
    (sign ++ padZeros 6 (Z.abs y))%string.

(** [d.toISOString()], in UTC; [None] is the RangeError of an invalid
    date. *)
Definition toISOString (d : Date) : option string :=
  match d with
  | Some t =>
      let yyyy := isoYear (YearFromTime t) in
      let mo := pad2 (MonthFromTime t + 1) in
      let dd := pad2 (DateFromTime t) in
      let hh := pad2 (HourFromTime t) in
      let mi := pad2 (MinFromTime t) in
      let ss := pad2 (SecFromTime t) in
      let ms := padZeros 3 (msFromTime t) in
      Some (yyyy ++ "-" ++ mo ++ "-" ++ dd ++ "T" ++ hh ++ ":" ++ mi ++ ":" ++ ss
            ++ "." ++ ms ++ "Z")%string
  | None => None
  end.

(** ** Records newest first (App.tsx) *)

(** [l.sort((a, b) => b.timestamp - a.timestamp)]: the stable descending
    arrangement. *)
Fixpoint insertNewestFirst (r : PunchRecord) (l : list PunchRecord)
  : list PunchRecord :=
  match l with
  | [] => [r]
  | x :: l' =>
      if timestamp x <=? timestamp r then r :: x :: l'
      else x :: insertNewestFirst r l'
  end.

Fixpoint sortNewestFirst (l : list PunchRecord) : list PunchRecord :=
  match l with
  | [] => []
  | r :: l' => insertNewestFirst r (sortNewestFirst l')
  end.

Definition sortDescArr (a : ref) : M ref :=
  fun s => (a, setNth a (sortNewestFirst (contents s a)) s).

(** [handlePunch]: the new state that [setRecords] is given, from the
    state [prev].  [Date.now()] is read twice, for the id and for the
    timestamp. *)
Definition handlePunch (type : string) (idNow tsNow : Z) (prev : ref) : M ref :=
  let newRecord := mkPunch (numToString idNow) tsNow type None in
  l <- readArr prev ;;
  a <- newArr (newRecord :: l) ;;
  sortDescArr a.

(** What [handleManualEntry] does: an alert, or a new state. *)
Inductive ManualOutcome : Type :=
| ManualAlert (message : string)
| ManualSaved (records : ref).

Section ManualEntry.

(** [new Date(s).getTime()] for a string [s]; [None] is NaN. *)
Variable parseDateTime : string -> option Z.

Definition handleManualEntry (manualDate manualTime manualType : string)
  (idNow : Z) (prev : ref) : M ManualOutcome :=
  if ((manualDate =? "") || (manualTime =? ""))%string then
    ret (ManualAlert "Por favor, preencha data e hora.")
  else
    let dateTimeString := (manualDate ++ "T" ++ manualTime)%string in
    match parseDateTime dateTimeString with
    | None => ret (ManualAlert "Data ou hora inválida.")
    | Some timestamp =>
        let newRecord := mkPunch (numToString idNow) timestamp manualType None in
        l <- readArr prev ;;
        a <- newArr (l ++ [newRecord]) ;;
        a' <- sortDescArr a ;;
        ret (ManualSaved a')
    end.

End ManualEntry.

(** Newest first. *)
Definition tsGe (a b : PunchRecord) : Prop := timestamp b <= timestamp a.

(** ** The schedule reminders (App.tsx, the clock tick) *)

Record UserSchedule : Type := mkSchedule {
  start : string;
  breakStart : string;
  breakEnd : string;
  end_ : string;
  enabled : bool
}.

(** Title and body of the reminder for the minute [hm], the first of the
    four schedule times that equals it. *)
Definition reminderFor (schedule : UserSchedule) (hm : string)
  : option (string * string) :=
  if (hm =? start schedule)%string then
    Some ("Chronos: Hora de Entrar!",
          "Bom dia! Não esqueça de registrar sua entrada.")
  else if (hm =? breakStart schedule)%string then
    Some ("Chronos: Pausa", "Hora do seu intervalo. Bom descanso!")
  else if (hm =? breakEnd schedule)%string then
    Some ("Chronos: Volta da Pausa", "Hora de retornar ao trabalho.")
  else if (hm =? end_ schedule)%string then
    Some ("Chronos: Fim do Expediente",
          "Por hoje é só! Não esqueça de registrar sua saída.")
  else None.

(** [sendNotification]: shown when the permission is granted and the
    schedule is enabled. *)
Definition sendNotification (granted : bool) (schedule : UserSchedule)
  (title body : string) : option (string * string) :=
  if granted && enabled schedule then Some (title, body) else None.

(** [lastNotificationTimeRef.current !== currentHM]. *)
Definition differsFrom (last : option string) (hm : string) : bool :=
  match last with
  | Some l => negb (l =? hm)%string
  | None => true
  end.

(** ** The cell of the admission date (exportToPDF) *)

(** A string is truthy when it is not empty. *)
Definition nonEmpty (s : string) : bool := negb (s =? "")%string.

(** [admissionDateFormatted]: the first three parts between dashes, in
    reverse order, when all three are there; the string itself otherwise. *)
Definition admissionDateFormatted (admissionDate : string) : string :=
  if nonEmpty admissionDate then
    match splitOn "-"%char admissionDate with
    | year :: month :: day :: _ =>
        if nonEmpty year && nonEmpty month && nonEmpty day then
          (day ++ "/" ++ month ++ "/" ++ year)%string
        else admissionDate
    | _ => admissionDate
    end
  else "".

(** No two neighbours of the list are equal. *)
Fixpoint noRepeat {A : Type} (l : list A) : Prop :=
  match l with
  | x :: ((y :: _) as rest) => x <> y /\ noRepeat rest
  | _ => True
  end.

(** The time value is at least three days inside the range of [Date]. *)
Definition insideRange (t : Z) : Prop := Z.abs t <= maxTime - 3 * msPerDay.

(** Every character of a field of a row: digits, the minus sign, the
    separators of dates and times, the letters of "Hh Mm" and those of
    "Invalid Date". *)
Definition fieldAlphabet : string := "-0123456789/:hm Invalid Date".

(** Reading a CSV text back: lines, then fields. *)
Definition parseCsv (content : string) : list (list string) :=
  map (splitOn ","%char) (splitOn "010"%char content).

Section Callers.

Context {host : Host}.

(** ** formatTime and formatDate *)

(** [date.toLocaleTimeString('pt-BR', {hour, minute, second: '2-digit'})]. *)
Definition formatTime (date : Date) : string :=
  match date with
  | Some t =>
      let hh := pad2 (HourFromTime (LocalTime t)) in
      let mm := pad2 (MinFromTime (LocalTime t)) in
      let ss := pad2 (SecFromTime (LocalTime t)) in
      (hh ++ ":" ++ mm ++ ":" ++ ss)%string
  | None => "Invalid Date"
  end.

(** [new Date(timestamp).toLocaleDateString('pt-BR', {day: '2-digit',
    month: '2-digit', year: 'numeric'})]: what pt-BR renders without the
    options as well. *)
Definition formatDate (timestamp : Z) : string :=
  toLocaleDateStringPtBR (newDate timestamp).

(** ** exportToCSV *)

(** What [exportToCSV] does: an alert, the RangeError of [toISOString], or
    a download of a file with the bytes of the [Blob]. *)
Inductive CsvOutcome : Type :=
| CsvAlert (message : string)
| CsvRangeError
| CsvDownload (fileName blob : string).

Definition csvHeaders : list string :=
  ["Data"; "Entrada"; "Saída Almoço"; "Volta Almoço"; "Saída"; "Total Horas"].

Definition csvFields (d : DayRow) : list string :=
  [dateFull d; entrada d; almocoSaida d; almocoVolta d; saida d; totalHoras d].

(** The template literal of one line. *)
Definition csvLine (d : DayRow) : string :=
  (dateFull d ++ "," ++ entrada d ++ "," ++ almocoSaida d ++ ","
   ++ almocoVolta d ++ "," ++ saida d ++ "," ++ totalHoras d)%string.

Definition csvContent (groupedData : list DayRow) : string :=
  String.concat lineFeed (String.concat "," csvHeaders :: map csvLine groupedData).

(** [groupRecordsByDay(records, d.getMonth(), d.getFullYear())]: with an
    invalid [d] both arguments are NaN, the day count is NaN and the loop
    does not run. *)
Definition rowsOfMonthOf (records : ref) (d : Date) : M (list DayRow) :=
  match getMonth d, getFullYear d with
  | Some m, Some y => groupRecordsByDay records m y
  | _, _ => ret []
  end.

(** After the early return the array is not empty, and the date of
    reference is that of its first element. *)
Definition exportToCSV (records : ref) : M CsvOutcome :=
  l <- readArr records ;;
  match l with
  | [] => ret (CsvAlert "Sem registros para exportar.")
  | first :: _ =>
      let lastRecordDate := newDate (timestamp first) in
      groupedData <- rowsOfMonthOf records lastRecordDate ;;
      let blob := (byteOrderMark ++ csvContent groupedData)%string in
      match toISOString lastRecordDate with
      | Some iso =>
          let month := substring 0 7 (hd EmptyString (splitOn "T"%char iso)) in
          ret (CsvDownload ("folha_ponto_" ++ month ++ ".csv")%string blob)
      | None => ret CsvRangeError
      end
  end.

(** ** Today (App.tsx) *)

(** [d.setHours(0, 0, 0, 0)]: the time value of local midnight of the day
    of [d]. *)
Definition setHoursZero (d : Date) : option Z :=
  match d with
  | Some t => TimeClip (UTC (MakeDate (Day (LocalTime t)) 0))
  | None => None
  end.

(** The predicate of [records.filter] in [getTodayRecords]; [now] is the
    time [new Date()] reads. *)
Definition isToday (now : Z) (r : PunchRecord) : bool :=
  strictEq (setHoursZero (newDate (timestamp r))) (setHoursZero (newDate now)).

Definition getTodayRecords (now : Z) (records : ref) : M ref :=
  filterArr (isToday now) records.

(** [todayStats] and [dailyBalance]. *)
Definition todayStats (now : Z) (records : ref) : M DailyHours :=
  today <- getTodayRecords now records ;;
  calculateDailyHours today.

Definition dailyBalance (stats : DailyHours) (dailyWorkloadMinutes : Q) : Q :=
  (total stats - dailyWorkloadMinutes)%Q.

(** ** The clock tick (App.tsx) *)

(** One tick of the timer: the notification shown, if any, and the minute
    [lastNotificationTimeRef] holds afterwards.  The reference is written
    whenever a schedule time matches, shown or not. *)
Definition onTick (schedule : UserSchedule) (granted : bool)
  (last : option string) (now : Z)
  : option (string * string) * option string :=
  if enabled schedule then
    let currentHM := toLocaleTimeStringPtBR (newDate now) in
    if differsFrom last currentHM then
      match reminderFor schedule currentHM with
      | Some (title, body) =>
          (sendNotification granted schedule title body, Some currentHM)
      | None => (None, last)
      end
    else (None, last)
  else (None, last).

(** A run of ticks, each with the permission of its moment: the
    notifications shown, in order, and the final reference. *)
Fixpoint runTicks (schedule : UserSchedule) (last : option string)
  (ticks : list (Z * bool)) : list (string * string) * option string :=
  match ticks with
  | [] => ([], last)
  | (now, granted) :: rest =>
      let '(shown, last') := onTick schedule granted last now in
      let '(later, final) := runTicks schedule last' rest in
      (match shown with Some n => n :: later | None => later end, final)
  end.

End Callers.

(** ** A schedule and two runs of the timer

    Start at 09:00, break from 12:00 to 13:00, end at 18:00; three ticks
    within 09:00 of 15 March 2024 in Brasilia; and the first two of them
    followed by a tick at 12:00.  The permission is granted at each. *)
Definition sampleSchedule : UserSchedule :=
  mkSchedule "09:00" "12:00" "13:00" "18:00" true.

Definition ticksWithinStart : list (Z * bool) :=
  [(1710504000000, true); (1710504001000, true); (1710504002000, true)].

Definition ticksOfMorning : list (Z * bool) :=
  [(1710504000000, true); (1710504001000, true); (1710514800000, true)].

(* ================================================================== *)
(** * Properties *)

(** ** The calendar *)

Example calendar_checks :
  (YearFromTime 1709164800000, MonthFromTime 1709164800000, DateFromTime 1709164800000)
    = (2024, 1, 29)
  /\ (YearFromTime 0, MonthFromTime 0, DateFromTime 0) = (1970, 0, 1)
  /\ (YearFromTime (-1), MonthFromTime (-1), DateFromTime (-1)) = (1969, 11, 31)
  /\ (YearFromTime 951868800000, MonthFromTime 951868800000, DateFromTime 951868800000)
    = (2000, 2, 1)
  /\ MakeDay 2024 1 29 = Day 1709164800000
  /\ MakeDay 2000 2 1 = Day 951868800000
  /\ MakeDay 1970 0 1 = 0
  /\ DateFromTime (MakeDate (MakeDay 1900 2 0) 0) = 28
  /\ DateFromTime (MakeDate (MakeDay 2023 12 0) 0) = 31.
Proof. repeat split; reflexivity. Qed.

Lemma allFrom_spec (n : nat) (p : Z -> bool) :
  forall z0, allFrom n z0 p = true ->
  forall z, z0 <= z < z0 + Z.of_nat n -> p z = true.
Proof.
  induction n as [|k IH]; simpl; intros z0 Hall z Hz; [lia|].
  destruct (p z0) eqn:Hk; [|discriminate].
  destruct (Z.eq_dec z z0) as [->|Hne]; [exact Hk|].
  apply (IH (z0 + 1)); [exact Hall|lia].
Qed.

Lemma allBelow_spec (n : Z) (p : Z -> bool) :
  allBelow n p = true -> forall z, 0 <= z < n -> p z = true.
Proof.
  intros Hall z Hz. apply (allFrom_spec _ _ 0 Hall). lia.
Qed.

(** The day of the month is between 1 and 31, by the rounding of the two
    divisions alone. *)
Lemma dateOfEraDay_range (doe : Z) : 1 <= dateOfEraDay doe <= 31.
Proof.
  unfold dateOfEraDay, marchMonth.
  generalize (dayOfMarchYear doe). intros doy.
  Z.div_mod_to_equations. lia.
Qed.

Lemma DateFromTime_range (t : Z) : 1 <= DateFromTime t <= 31.
Proof. unfold DateFromTime. apply dateOfEraDay_range. Qed.

(** The day before the first of a month is the 28th, 29th, 30th or 31st:
    checked on the 4800 months of the cycle. *)
Lemma eve_of_month_in_era (yoe mp : Z) :
  0 <= yoe < 400 -> 0 <= mp < 12 ->
  28 <= dateOfEraDay ((monthStartInEra yoe mp - 1) mod daysPerEra) <= 31.
Proof.
  intros Hy Hm.
  assert (Hall : allBelow 4800
            (fun z =>
               let d := dateOfEraDay
                          ((monthStartInEra (z / 12) (z mod 12) - 1) mod daysPerEra) in
               (28 <=? d) && (d <=? 31))
          = true) by (vm_compute; reflexivity).
  pose proof (allBelow_spec _ _ Hall (yoe * 12 + mp)) as H.
  cbv beta zeta in H.
  replace ((yoe * 12 + mp) / 12) with yoe in H
    by (apply Z.div_unique with mp; lia).
  replace ((yoe * 12 + mp) mod 12) with mp in H
    by (apply Z.mod_unique with yoe; lia).
  rewrite andb_true_iff, !Z.leb_le in H.
  apply H. lia.
Qed.

Lemma dayOfEra_eve (ym mn : Z) :
  dayOfEra (dayFromMonthStart ym mn - 1)
  = (monthStartInEra (marchYearOf ym mn mod 400) (marchMonthOf mn) - 1)
      mod daysPerEra.
Proof.
  unfold dayOfEra, dayFromMonthStart.
  replace (marchYearOf ym mn / 400 * daysPerEra
           + monthStartInEra (marchYearOf ym mn mod 400) (marchMonthOf mn)
           - epochShift - 1 + epochShift)
    with (monthStartInEra (marchYearOf ym mn mod 400) (marchMonthOf mn) - 1
          + marchYearOf ym mn / 400 * daysPerEra) by ring.
  apply Z.mod_add. discriminate.
Qed.

Lemma eve_of_month (ym mn : Z) :
  0 <= mn < 12 ->
  28 <= dateOfEraDay (dayOfEra (dayFromMonthStart ym mn - 1)) <= 31.
Proof.
  intros Hmn. rewrite dayOfEra_eve.
  apply eve_of_month_in_era.
  - apply Z.mod_pos_bound. reflexivity.
  - unfold marchMonthOf. destruct (mn <=? 1) eqn:E;
      [apply Z.leb_le in E|apply Z.leb_gt in E]; lia.
Qed.

(** [MakeDay year month 0] is the eve of a month, whatever [month] is. *)
Lemma MakeDay_zero_date (year month : Z) :
  28 <= dateOfEraDay (dayOfEra (MakeDay year month 0)) <= 31.
Proof.
  unfold MakeDay.
  replace (dayFromMonthStart (year + month / 12) (month mod 12) + 0 - 1)
    with (dayFromMonthStart (year + month / 12) (month mod 12) - 1) by ring.
  apply eve_of_month. apply Z.mod_pos_bound. reflexivity.
Qed.

(** The 4800 months of the cycle pass the check. *)
Lemma all_months_ok : allBelow 4800 monthOk = true.
Proof. vm_compute. reflexivity. Qed.

Lemma civilOfEraDay_fields (doe : Z) :
  civilOfEraDay doe = (yearOfEra doe, marchMonth doe, dateOfEraDay doe).
Proof. reflexivity. Qed.

(** What the check says of one month of the cycle. *)
Lemma month_in_era (yoe mp : Z) :
  0 <= yoe < 400 -> 0 <= mp < 12 ->
  (forall i, 1 <= i <= daysOfMonthInEra yoe mp ->
     0 <= monthStartInEra yoe mp + i - 1 < daysPerEra
     /\ yearOfEra (monthStartInEra yoe mp + i - 1) = yoe
     /\ marchMonth (monthStartInEra yoe mp + i - 1) = mp
     /\ dateOfEraDay (monthStartInEra yoe mp + i - 1) = i)
  /\ dateOfEraDay
       ((monthStartInEra yoe mp + daysOfMonthInEra yoe mp) mod daysPerEra) = 1.
Proof.
  intros Hy Hm.
  pose proof (allBelow_spec _ _ all_months_ok (yoe * 12 + mp) ltac:(lia)) as H.
  unfold monthOk in H. cbv zeta in H.
  replace ((yoe * 12 + mp) / 12) with yoe in H
    by (apply Z.div_unique with mp; lia).
  replace ((yoe * 12 + mp) mod 12) with mp in H
    by (apply Z.mod_unique with yoe; lia).
  apply andb_true_iff in H. destruct H as [Hdays Hnext].
  split; [|now apply Z.eqb_eq].
  intros i Hi.
  pose proof (allFrom_spec _ _ _ Hdays i ltac:(lia)) as Hok.
  unfold dayOk in Hok. cbv zeta in Hok.
  rewrite civilOfEraDay_fields in Hok.
  rewrite !andb_true_iff, Z.leb_le, Z.ltb_lt, !Z.eqb_eq in Hok.
  tauto.
Qed.

(** The eve of the next month, in the terms of the check. *)
Lemma eve_is_daysOfMonth (yr m : Z) :
  0 <= m <= 11 ->
  dateOfEraDay (dayOfEra (MakeDay yr (m + 1) 0))
  = daysOfMonthInEra (marchYearOf yr m mod 400) (marchMonthOf m).
Proof.
  intros Hm. unfold MakeDay.
  replace (dayFromMonthStart (yr + (m + 1) / 12) ((m + 1) mod 12) + 0 - 1)
    with (dayFromMonthStart (yr + (m + 1) / 12) ((m + 1) mod 12) - 1) by ring.
  rewrite dayOfEra_eve. unfold daysOfMonthInEra.
  assert (Hcases : m = 0 \/ m = 1 \/ m = 2 \/ m = 3 \/ m = 4 \/ m = 5 \/ m = 6
                   \/ m = 7 \/ m = 8 \/ m = 9 \/ m = 10 \/ m = 11) by lia.
  repeat (destruct Hcases as [->|Hcases]); try subst m;
    cbn [Z.add Pos.add Pos.succ];
    try (change (12 / 12) with 1; change (12 mod 12) with 0);
    rewrite ?(Z.div_small _ 12), ?(Z.mod_small _ 12) by lia;
    unfold marchYearOf, marchMonthOf;
    cbn [Z.leb Z.eqb Z.compare Pos.compare Pos.compare_cont Pos.eqb Z.add Z.sub
         Z.opp Z.pos_sub Pos.add Pos.succ Pos.pred_double Z.succ_double
         Z.pred_double Z.double];
    match goal with
    | |- dateOfEraDay ((monthStartInEra ?a ?c - 1) mod _)
         = dateOfEraDay ((monthStartInEra ?b ?c - 1) mod _) =>
        replace a with b; [reflexivity|]
    end;
    Z.div_mod_to_equations; lia.
Qed.

(** Day [i] of a month, from 1 to the day of the eve of the next month,
    is in that month of that year and is its [i]-th day. *)
Lemma MakeDay_fields (yr m i : Z) :
  0 <= m <= 11 ->
  1 <= i <= dateOfEraDay (dayOfEra (MakeDay yr (m + 1) 0)) ->
  YearFromDay (MakeDay yr m i) = yr
  /\ monthOfEraDay (dayOfEra (MakeDay yr m i)) = m
  /\ dateOfEraDay (dayOfEra (MakeDay yr m i)) = i.
Proof.
  intros Hm Hi. rewrite (eve_is_daysOfMonth yr m Hm) in Hi.
  set (Y := marchYearOf yr m) in *. set (mp := marchMonthOf m) in *.
  assert (Hyoe : 0 <= Y mod 400 < 400) by (apply Z.mod_pos_bound; lia).
  assert (Hmp : 0 <= mp < 12)
    by (subst mp; unfold marchMonthOf; destruct (Z.leb_spec m 1); lia).
  destruct (month_in_era _ _ Hyoe Hmp) as [Hdays _].
  destruct (Hdays i Hi) as (Hdoe & Hy & Hmon & Hdate).
  set (doe := monthStartInEra (Y mod 400) mp + i - 1) in *.
  assert (HD : MakeDay yr m i + epochShift = doe + Y / 400 * daysPerEra).
  { unfold MakeDay, dayFromMonthStart. fold Y. fold mp.
    rewrite (Z.div_small m 12), (Z.mod_small m 12) by lia.
    rewrite Z.add_0_r. fold Y. fold mp. subst doe. ring. }
  assert (Hera : dayOfEra (MakeDay yr m i) = doe).
  { unfold dayOfEra. rewrite HD, Z.mod_add by discriminate.
    apply Z.mod_small. exact Hdoe. }
  assert (Hq : eraOf (MakeDay yr m i) = Y / 400).
  { unfold eraOf. rewrite HD, Z.div_add by discriminate.
    rewrite (Z.div_small doe) by exact Hdoe. ring. }
  assert (Hmonth : monthOfEraDay doe = m).
  { unfold monthOfEraDay. rewrite Hmon. subst mp. unfold marchMonthOf.
    destruct (Z.leb_spec m 1); destruct (Z.ltb_spec (m + 10) 10);
      destruct (Z.ltb_spec (m - 2) 10); lia. }
  unfold YearFromDay. rewrite Hera, Hq, Hmonth, Hy, Hdate.
  split; [|split; reflexivity].
  pose proof (Z.div_mod Y 400 ltac:(lia)) as HY.
  subst Y. unfold marchYearOf in *.
  destruct (Z.leb_spec m 1); lia.
Qed.

(** The day after the last is the first of a month. *)
Lemma MakeDay_next_month (yr m : Z) :
  0 <= m <= 11 ->
  dateOfEraDay
    (dayOfEra (MakeDay yr m (dateOfEraDay (dayOfEra (MakeDay yr (m + 1) 0)) + 1)))
  = 1.
Proof.
  intros Hm. rewrite (eve_is_daysOfMonth yr m Hm).
  set (Y := marchYearOf yr m). set (mp := marchMonthOf m).
  assert (Hyoe : 0 <= Y mod 400 < 400) by (apply Z.mod_pos_bound; lia).
  assert (Hmp : 0 <= mp < 12)
    by (subst mp; unfold marchMonthOf; destruct (Z.leb_spec m 1); lia).
  destruct (month_in_era _ _ Hyoe Hmp) as [_ Hnext].
  etransitivity; [|exact Hnext]. f_equal.
  unfold dayOfEra, MakeDay, dayFromMonthStart.
  rewrite (Z.div_small m 12), (Z.mod_small m 12) by lia.
  rewrite Z.add_0_r. fold Y. fold mp.
  replace (Y / 400 * daysPerEra + monthStartInEra (Y mod 400) mp - epochShift
           + (daysOfMonthInEra (Y mod 400) mp + 1) - 1 + epochShift)
    with (monthStartInEra (Y mod 400) mp + daysOfMonthInEra (Y mod 400) mp
          + Y / 400 * daysPerEra) by ring.
  apply Z.mod_add. discriminate.
Qed.

Lemma Day_MakeDate (d : Z) : Day (MakeDate d 0) = d.
Proof.
  unfold Day, MakeDate. rewrite Z.add_0_r. apply Z.div_mul. discriminate.
Qed.

(** ** Sorting by timestamp *)

Lemma insertByTimestamp_perm (r : PunchRecord) (l : list PunchRecord) :
  Permutation (insertByTimestamp r l) (r :: l).
Proof.
  induction l as [|x l IH]; simpl; [reflexivity|].
  destruct (timestamp r <=? timestamp x); [reflexivity|].
  rewrite IH. apply perm_swap.
Qed.

Lemma sortByTimestamp_perm (l : list PunchRecord) :
  Permutation (sortByTimestamp l) l.
Proof.
  induction l as [|r l IH]; simpl; [reflexivity|].
  rewrite insertByTimestamp_perm. now constructor.
Qed.

Lemma sortByTimestamp_In (l : list PunchRecord) (r : PunchRecord) :
  In r (sortByTimestamp l) <-> In r l.
Proof.
  split; apply Permutation_in;
    [|symmetry]; apply sortByTimestamp_perm.
Qed.

Lemma insertByTimestamp_sorted (r : PunchRecord) (l : list PunchRecord) :
  StronglySorted tsLe l -> StronglySorted tsLe (insertByTimestamp r l).
Proof.
  induction 1 as [|x l Hl IH Hx]; simpl.
  - repeat constructor.
  - destruct (timestamp r <=? timestamp x) eqn:E.
    + apply Z.leb_le in E. constructor; [now constructor|].
      constructor; [exact E|].
      eapply Forall_impl; [|exact Hx]. unfold tsLe. intros; lia.
    + apply Z.leb_gt in E. constructor; [exact IH|].
      apply Forall_forall. intros y Hy.
      apply (Permutation_in _ (insertByTimestamp_perm r l)) in Hy.
      destruct Hy as [<-|Hy]; [unfold tsLe; lia|].
      rewrite Forall_forall in Hx. now apply Hx.
Qed.

Lemma sortByTimestamp_sorted (l : list PunchRecord) :
  StronglySorted tsLe (sortByTimestamp l).
Proof.
  induction l; simpl; [constructor|now apply insertByTimestamp_sorted].
Qed.

(** An array already in ascending order is left as it is. *)
Lemma sortByTimestamp_of_sorted (l : list PunchRecord) :
  StronglySorted tsLe l -> sortByTimestamp l = l.
Proof.
  induction 1 as [|x l Hl IH Hx]; simpl; [reflexivity|].
  rewrite IH. destruct l as [|y l']; simpl; [reflexivity|].
  inversion Hx as [|? ? Hxy _]; subst. unfold tsLe in Hxy.
  apply Z.leb_le in Hxy. now rewrite Hxy.
Qed.

Lemma sortByTimestamp_idempotent (l : list PunchRecord) :
  sortByTimestamp (sortByTimestamp l) = sortByTimestamp l.
Proof. apply sortByTimestamp_of_sorted, sortByTimestamp_sorted. Qed.

(** Stability: records with equal timestamps keep their order. *)
Lemma insertByTimestamp_stable (t : Z) (r : PunchRecord) (l : list PunchRecord) :
  filter (fun x => timestamp x =? t) (insertByTimestamp r l)
  = filter (fun x => timestamp x =? t) (r :: l).
Proof.
  induction l as [|x l IH]; [reflexivity|].
  simpl insertByTimestamp.
  destruct (timestamp r <=? timestamp x) eqn:E; [reflexivity|].
  apply Z.leb_gt in E.
  cbn [filter]. rewrite IH. cbn [filter].
  destruct (timestamp r =? t) eqn:Er, (timestamp x =? t) eqn:Ex;
    try reflexivity.
  apply Z.eqb_eq in Er, Ex. lia.
Qed.

Lemma sortByTimestamp_stable (t : Z) (l : list PunchRecord) :
  filter (fun x => timestamp x =? t) (sortByTimestamp l)
  = filter (fun x => timestamp x =? t) l.
Proof.
  induction l as [|r l IH]; [reflexivity|].
  simpl sortByTimestamp. rewrite insertByTimestamp_stable.
  simpl. now rewrite IH.
Qed.

(** [find] on a sorted array returns an earliest match. *)
Lemma find_sorted_earliest (p : PunchRecord -> bool) (l : list PunchRecord)
  (r : PunchRecord) :
  StronglySorted tsLe l -> find p l = Some r ->
  forall r', In r' l -> p r' = true -> timestamp r <= timestamp r'.
Proof.
  induction 1 as [|x l Hl IH Hx]; simpl; [discriminate|].
  intros Hfind r' Hin Hp.
  destruct (p x) eqn:Epx.
  - injection Hfind as <-.
    destruct Hin as [<-|Hin]; [lia|].
    rewrite Forall_forall in Hx. now apply Hx.
  - destruct Hin as [<-|Hin]; [congruence|].
    now apply IH.
Qed.

(** ** The store *)

Lemma contents_setNth_same (a : nat) (v : list PunchRecord) (s : Store) :
  (a < List.length s)%nat -> contents (setNth a v s) a = v.
Proof.
  unfold contents. revert a; induction s as [|x s IH]; intros [|a]; simpl;
    intros H; try lia; auto.
  apply IH. lia.
Qed.

Lemma contents_setNth_other (a b : nat) (v : list PunchRecord) (s : Store) :
  a <> b -> contents (setNth a v s) b = contents s b.
Proof.
  unfold contents. revert a b; induction s as [|x s IH]; intros [|a] [|b] H;
    simpl; auto; try congruence.
Qed.

Lemma setNth_contents (a : nat) (s : Store) : setNth a (contents s a) s = s.
Proof.
  unfold contents. revert a; induction s as [|x s IH]; intros [|a]; simpl;
    auto. now rewrite IH.
Qed.

Lemma setNth_app_length (s t : Store) (x v : list PunchRecord) :
  setNth (List.length s) v (s ++ x :: t) = s ++ v :: t.
Proof. induction s as [|y s IH]; simpl; [reflexivity|now rewrite IH]. Qed.

Lemma contents_app_length (s t : Store) (x : list PunchRecord) :
  contents (s ++ x :: t) (List.length s) = x.
Proof. unfold contents. induction s as [|y s IH]; simpl; auto. Qed.

Lemma contents_app_lt (s t : Store) (a : nat) :
  (a < List.length s)%nat -> contents (s ++ t) a = contents s a.
Proof. unfold contents. intros H. now apply app_nth1. Qed.

Lemma contents_beyond (s : Store) (a : nat) :
  (List.length s <= a)%nat -> contents s a = [].
Proof. unfold contents. intros H. now apply nth_overflow. Qed.

Lemma contents_nonempty_valid (s : Store) (a : nat) :
  contents s a <> [] -> (a < List.length s)%nat.
Proof.
  intros H. destruct (Nat.lt_ge_cases a (List.length s)) as [Hlt|Hge];
    [exact Hlt|].
  now rewrite contents_beyond in H.
Qed.

(** ** calculateDailyHours, run on a store *)

(** The function returns [dailyHours] of the elements and leaves the array
    sorted. *)
Lemma calculateDailyHours_run (records : ref) (s : Store) :
  calculateDailyHours records s
  = (dailyHours (contents s records),
     setNth records (sortByTimestamp (contents s records)) s).
Proof.
  unfold calculateDailyHours, bind, readArr, sortArr, ret, dailyHours.
  destruct (contents s records) as [|r l] eqn:E.
  - simpl. f_equal. rewrite <- E. symmetry. apply setNth_contents.
  - cbn [List.length Nat.eqb].
    rewrite contents_setNth_same; [now rewrite ?E|].
    apply contents_nonempty_valid. congruence.
Qed.

Lemma dailyHours_sorted (l : list PunchRecord) :
  dailyHours (sortByTimestamp l) = dailyHours l.
Proof. unfold dailyHours. now rewrite sortByTimestamp_idempotent. Qed.

(** ** The daily state machine *)

Lemma onRecord_ENTRY (acc : DayAcc) (r : PunchRecord) :
  type r = PunchType.ENTRY ->
  onRecord acc r
  = mkAcc (totalMinutes acc) (breakMinutes acc) (Some (timestamp r))
          (breakStartTime acc).
Proof. intros H. unfold onRecord. now rewrite H. Qed.

Lemma onRecord_BREAK_START (acc : DayAcc) (r : PunchRecord) :
  type r = PunchType.BREAK_START ->
  onRecord acc r
  = if truthy (entryTime acc) then
      mkAcc (totalMinutes acc
             + minutesBetween (timestamp r) (numberOf (entryTime acc)))
            (breakMinutes acc) None (Some (timestamp r))
    else
      mkAcc (totalMinutes acc) (breakMinutes acc) (entryTime acc)
            (Some (timestamp r)).
Proof. intros H. unfold onRecord. now rewrite H. Qed.

Lemma onRecord_BREAK_END (acc : DayAcc) (r : PunchRecord) :
  type r = PunchType.BREAK_END ->
  onRecord acc r
  = if truthy (breakStartTime acc) then
      mkAcc (totalMinutes acc)
            (breakMinutes acc
             + minutesBetween (timestamp r) (numberOf (breakStartTime acc)))
            (Some (timestamp r)) None
    else
      mkAcc (totalMinutes acc) (breakMinutes acc) (Some (timestamp r))
            (breakStartTime acc).
Proof.
  intros H. unfold onRecord. rewrite H. cbn.
  now destruct (truthy (breakStartTime acc)).
Qed.

Lemma onRecord_EXIT (acc : DayAcc) (r : PunchRecord) :
  type r = PunchType.EXIT ->
  onRecord acc r
  = if truthy (entryTime acc) then
      mkAcc (totalMinutes acc
             + minutesBetween (timestamp r) (numberOf (entryTime acc)))
            (breakMinutes acc) None (breakStartTime acc)
    else acc.
Proof. intros H. unfold onRecord. now rewrite H. Qed.

Lemma onRecord_unrecognised (acc : DayAcc) (r : PunchRecord) :
  recognised r = false -> onRecord acc r = acc.
Proof.
  unfold recognised, onRecord. intros H.
  repeat (apply orb_false_iff in H; destruct H as [H ?]).
  now repeat match goal with E : (_ =? _)%string = false |- _ => rewrite E; clear E end.
Qed.

(** EXIT never touches the break: neither the open slot nor the sum. *)
Lemma onRecord_EXIT_keeps_break (acc : DayAcc) (r : PunchRecord) :
  type r = PunchType.EXIT ->
  breakStartTime (onRecord acc r) = breakStartTime acc
  /\ breakMinutes (onRecord acc r) = breakMinutes acc.
Proof.
  intros H. rewrite (onRecord_EXIT _ _ H).
  now destruct (truthy (entryTime acc)).
Qed.

(** One record with a timestamp other than 0 moves the variables of the
    source and the slots of the specification in step. *)
Lemma onRecord_refines (acc : DayAcc) (st : DailySpec.Slots) (r : PunchRecord) :
  timestamp r <> 0 -> sameSlots acc st ->
  sameSlots (onRecord acc r) (DailySpec.step st r).
Proof.
  intros Hts (Ht & Hb & He & Hs & He0 & Hs0).
  destruct acc as [tm bm e b], st as [w p oe ob]; cbn in *; subst.
  unfold onRecord, DailySpec.step, sameSlots.
  destruct (type r =? PunchType.ENTRY)%string;
    [cbn; repeat split; congruence|].
  destruct (type r =? PunchType.BREAK_START)%string.
  { destruct oe as [t|]; cbn;
      try (destruct (Z.eqb_spec t 0); [congruence|]);
      cbn; repeat split; congruence. }
  destruct (type r =? PunchType.BREAK_END)%string.
  { destruct ob as [t|]; cbn;
      try (destruct (Z.eqb_spec t 0); [congruence|]);
      cbn; repeat split; congruence. }
  destruct (type r =? PunchType.EXIT)%string.
  { destruct oe as [t|]; cbn;
      try (destruct (Z.eqb_spec t 0); [congruence|]);
      cbn; repeat split; congruence. }
  cbn; repeat split; congruence.
Qed.

Lemma fold_onRecord_refines (l : list PunchRecord) :
  (forall r, In r l -> timestamp r <> 0) ->
  forall acc st, sameSlots acc st ->
  sameSlots (fold_left onRecord l acc) (fold_left DailySpec.step l st).
Proof.
  induction l as [|r l IH]; simpl; intros Hl acc st Hrel; [exact Hrel|].
  apply IH; [auto|]. apply onRecord_refines; auto.
Qed.

(** Away from timestamp 0 the source computes what the table of the
    specification prescribes. *)
Lemma dailyHours_refines_table (l : list PunchRecord) :
  (forall r, In r l -> timestamp r <> 0) ->
  dailyHours l = DailySpec.computeDaily l.
Proof.
  intros Hl. unfold dailyHours, DailySpec.computeDaily, hoursOfAcc.
  destruct (fold_onRecord_refines (sortByTimestamp l)) with
    (acc := initialAcc) (st := DailySpec.initial) as (Ht & Hb & _).
  - intros r Hr. apply Hl. now apply sortByTimestamp_In.
  - unfold sameSlots; simpl. repeat split; auto; discriminate.
  - cbv zeta. now rewrite Ht, Hb.
Qed.

Lemma fold_onRecord_unrecognised (l : list PunchRecord) (acc : DayAcc) :
  (forall r, In r l -> recognised r = false) ->
  fold_left onRecord l acc = acc.
Proof.
  revert acc; induction l as [|r l IH]; simpl; intros acc Hl; [reflexivity|].
  rewrite onRecord_unrecognised by auto. apply IH; auto.
Qed.

Lemma dailyHours_unrecognised (l : list PunchRecord) :
  (forall r, In r l -> recognised r = false) -> dailyHours l = zeroHours.
Proof.
  intros Hl. unfold dailyHours.
  rewrite fold_onRecord_unrecognised; [reflexivity|].
  intros r Hr. apply Hl. now apply sortByTimestamp_In.
Qed.

(** The examples of section 8 of the specification, with hours counted
    from a midnight. *)
Example dailyHours_examples :
  dailyHours [] = mkDaily 0 0
  /\ (total (dailyHours [punchAtHour 9 PunchType.ENTRY;
                         punchAtHour 17 PunchType.EXIT]) == 480)%Q
  /\ (total (dailyHours [punchAtHour 9 PunchType.ENTRY;
                         punchAtHour 12 PunchType.BREAK_START;
                         punchAtHour 13 PunchType.BREAK_END;
                         punchAtHour 18 PunchType.EXIT]) == 480)%Q
  /\ (break (dailyHours [punchAtHour 9 PunchType.ENTRY;
                         punchAtHour 12 PunchType.BREAK_START;
                         punchAtHour 13 PunchType.BREAK_END;
                         punchAtHour 18 PunchType.EXIT]) == 60)%Q
  /\ dailyHours [punchAtHour 9 PunchType.ENTRY] = mkDaily 0 0
  /\ (total (dailyHours [punchAtHour 8 PunchType.ENTRY;
                         punchAtHour 9 PunchType.ENTRY;
                         punchAtHour 17 PunchType.EXIT]) == 480)%Q.
Proof. vm_compute. repeat split; reflexivity. Qed.

(** ** The claims about calculateDailyHours *)

(** C1.  The claim: for every list of records, [calculateDailyHours]
    returns what one pass of the table of section 4.1 returns on the
    records sorted by timestamp.  The source tests a slot with [if (slot)],
    and timestamp 0 is falsy: on ENTRY at 0 followed by EXIT at 60000 the
    source returns total 0, where the table closes the interval and gives
    one minute.  ([dailyHours_refines_table] shows the two agree on every
    list without a timestamp 0.) *)
Theorem calculateDailyHours_epoch_entry :
  let l := [mkPunch "a" 0 PunchType.ENTRY None;
            mkPunch "b" 60000 PunchType.EXIT None] in
  fst (calculateDailyHours 0%nat [l]) = mkDaily 0 0
  /\ (total (DailySpec.computeDaily l) == 1)%Q.
Proof. vm_compute. split; reflexivity. Qed.

(** With the entry away from timestamp 0, a day that ends while a break is
    open counts the work before the break and no break at all. *)
Lemma dailyHours_break_open_at_exit (e b x : PunchRecord) :
  type e = PunchType.ENTRY -> type b = PunchType.BREAK_START ->
  type x = PunchType.EXIT ->
  timestamp e < timestamp b < timestamp x -> timestamp e <> 0 ->
  (total (dailyHours [e; b; x]) == minutesBetween (timestamp b) (timestamp e))%Q
  /\ break (dailyHours [e; b; x]) = 0%Q.
Proof.
  intros He Hb Hx Hlt Hnz. unfold dailyHours.
  rewrite sortByTimestamp_of_sorted.
  - cbn [fold_left].
    rewrite (onRecord_ENTRY _ _ He), (onRecord_BREAK_START _ _ Hb).
    cbn [entryTime initialAcc truthy].
    destruct (Z.eqb_spec (timestamp e) 0) as [E|_]; [contradiction|].
    cbn [negb]. rewrite (onRecord_EXIT _ _ Hx).
    cbn. split; [|reflexivity]. apply Qplus_0_l.
  - repeat constructor; unfold tsLe; lia.
Qed.

(** C6.  The claim: ENTRY at t1, BREAK_START at t2, EXIT at t3 with
    t1 < t2 < t3 gives total t2 - t1 and break 0.  At t1 = 0 the entry slot
    holds the falsy 0, BREAK_START closes nothing, and the source returns
    total 0 where the claim has one minute.  (Same defect as C1;
    [dailyHours_break_open_at_exit] and [onRecord_EXIT_keeps_break] are the
    claim away from t1 = 0.) *)
Theorem calculateDailyHours_break_open_epoch_entry :
  let l := [mkPunch "a" 0 PunchType.ENTRY None;
            mkPunch "b" 60000 PunchType.BREAK_START None;
            mkPunch "c" 120000 PunchType.EXIT None] in
  fst (calculateDailyHours 0%nat [l]) = mkDaily 0 0
  /\ (minutesBetween 60000 0 == 1)%Q.
Proof. vm_compute. split; reflexivity. Qed.



(** C10.  A timestamp of exactly 0 in a slot reads as unset.  For ENTRY at
    0 and EXIT at [t > 0] the source returns total 0, not the [t / 60000]
    minutes of the table; for BREAK_START at 0 and BREAK_END at [t > 0] it
    returns break 0, again not [t / 60000]. *)
Theorem epoch_timestamp_reads_as_unset
  (s : Store) (t : Z) (id1 id2 : string) (n1 n2 : option string) :
  0 < t ->
  let work := [mkPunch id1 0 PunchType.ENTRY n1; mkPunch id2 t PunchType.EXIT n2] in
  let pause := [mkPunch id1 0 PunchType.BREAK_START n1;
                mkPunch id2 t PunchType.BREAK_END n2] in
  total (fst (calculateDailyHours (List.length s) (s ++ [work]))) = 0%Q
  /\ (total (DailySpec.computeDaily work) == minutesBetween t 0)%Q
  /\ break (fst (calculateDailyHours (List.length s) (s ++ [pause]))) = 0%Q
  /\ (break (DailySpec.computeDaily pause) == minutesBetween t 0)%Q
  /\ (0 < minutesBetween t 0)%Q.
Proof.
  intros Ht work pause.
  rewrite !calculateDailyHours_run, !contents_app_length.
  assert (Hsorted : forall a b, sortByTimestamp
              [mkPunch id1 0 a n1; mkPunch id2 t b n2]
            = [mkPunch id1 0 a n1; mkPunch id2 t b n2]).
  { intros a b. apply sortByTimestamp_of_sorted.
    repeat constructor; unfold tsLe; simpl; lia. }
  unfold dailyHours, DailySpec.computeDaily, work, pause.
  rewrite !Hsorted.
  repeat split; try reflexivity.
  - cbn. apply Qplus_0_l.
  - cbn. apply Qplus_0_l.
  - unfold minutesBetween, Qlt. simpl. lia.
Qed.

Lemma epoch_timestamp_reads_as_unset_witness :
  total (fst (calculateDailyHours 0%nat
                ([] ++ [[mkPunch "a" 0 PunchType.ENTRY None;
                         mkPunch "b" 60000 PunchType.EXIT None]]))) = 0%Q.
Proof.
  apply (epoch_timestamp_reads_as_unset [] 60000 "a" "b" None None).
  reflexivity.
Defined.

(** ** Grouping *)

Section GroupByFacts.

Variables (A K : Type) (eqb : K -> K -> bool) (key : A -> K).
Hypothesis eqb_spec : forall a b, eqb a b = true <-> a = b.

Lemma groupBy_snoc (l : list A) (x : A) :
  groupBy eqb key (l ++ [x]) = addToGroup eqb (key x) x (groupBy eqb key l).
Proof. unfold groupBy. now rewrite fold_left_app. Qed.

(** Where a pair of the new grouping comes from. *)
Lemma addToGroup_In_inv (kx : K) (x : A) (G : list (K * list A)) (k : K)
  (g : list A) :
  In (k, g) (addToGroup eqb kx x G) ->
  In (k, g) G
  \/ (k = kx /\ exists g', In (k, g') G /\ g = g' ++ [x])
  \/ (k = kx /\ g = [x]).
Proof.
  induction G as [|[k' g'] G IH]; simpl.
  - intros [H|[]]. injection H as <- <-. auto.
  - destruct (eqb kx k') eqn:E.
    + apply eqb_spec in E. subst k'.
      intros [H|H]; [|auto].
      injection H as <- <-. right; left. split; [reflexivity|].
      exists g'. auto.
    + intros [H|H]; [auto|].
      destruct (IH H) as [H1|[(-> & g'' & H1 & ->)|H1]]; [auto| |auto].
      right; left. split; [reflexivity|]. exists g''. auto.
Qed.

(** A group only grows. *)
Lemma addToGroup_mono (kx : K) (x : A) (G : list (K * list A)) (k : K)
  (g : list A) :
  In (k, g) G ->
  exists g', In (k, g') (addToGroup eqb kx x G) /\ incl g g'.
Proof.
  induction G as [|[k' g'] G IH]; simpl; [intros []|].
  intros [H|H].
  - injection H as -> ->. destruct (eqb kx k).
    + exists (g ++ [x]). split; [now left|]. now apply incl_appl, incl_refl.
    + exists g. split; [now left|apply incl_refl].
  - destruct (IH H) as (g'' & Hin & Hincl).
    destruct (eqb kx k').
    + exists g. split; [now right|apply incl_refl].
    + exists g''. split; [now right|exact Hincl].
Qed.

(** The new element lands in a group under its key. *)
Lemma addToGroup_has (kx : K) (x : A) (G : list (K * list A)) :
  exists g, In (kx, g) (addToGroup eqb kx x G) /\ In x g.
Proof.
  induction G as [|[k' g'] G IH]; simpl.
  - exists [x]. split; now left.
  - destruct (eqb kx k') eqn:E.
    + apply eqb_spec in E. subst k'. exists (g' ++ [x]).
      split; [now left|]. apply in_or_app. right. now left.
    + destruct IH as (g & Hin & Hx). exists g. split; [now right|exact Hx].
Qed.

(** Every member of a group comes from the input and has the key of the
    group. *)
Lemma groupBy_members (l : list A) (k : K) (g : list A) :
  In (k, g) (groupBy eqb key l) ->
  forall x, In x g -> In x l /\ key x = k.
Proof.
  revert k g. induction l as [|y l IH] using rev_ind; intros k g.
  - intros [].
  - rewrite groupBy_snoc. intros H x Hx.
    destruct (addToGroup_In_inv _ _ _ _ _ H)
      as [H1|[(-> & g' & H1 & ->)|(-> & ->)]].
    + destruct (IH _ _ H1 x Hx). split; [apply in_or_app; now left|assumption].
    + apply in_app_or in Hx. destruct Hx as [Hx|[<-|[]]].
      * destruct (IH _ _ H1 x Hx). split; [apply in_or_app; now left|assumption].
      * split; [apply in_or_app; right; now left|reflexivity].
    + destruct Hx as [<-|[]].
      split; [apply in_or_app; right; now left|reflexivity].
Qed.

(** Every element of the input is in a group under its key. *)
Lemma groupBy_covers (l : list A) (x : A) :
  In x l -> exists g, In (key x, g) (groupBy eqb key l) /\ In x g.
Proof.
  induction l as [|y l IH] using rev_ind; [intros []|].
  rewrite groupBy_snoc. intros H. apply in_app_or in H.
  destruct H as [H|[<-|[]]].
  - destruct (IH H) as (g & Hin & Hx).
    destruct (addToGroup_mono (key y) y _ _ _ Hin) as (g' & Hin' & Hincl).
    exists g'. split; [exact Hin'|now apply Hincl].
  - apply addToGroup_has.
Qed.

End GroupByFacts.

(** The keys of the groups are distinct. *)
Section GroupByKeys.

Variables (A K : Type) (eqb : K -> K -> bool) (key : A -> K).
Hypothesis eqb_spec : forall a b, eqb a b = true <-> a = b.

Lemma addToGroup_keys (kx : K) (x : A) (G : list (K * list A)) :
  map fst (addToGroup eqb kx x G) = map fst G
  \/ (~ In kx (map fst G) /\ map fst (addToGroup eqb kx x G) = map fst G ++ [kx]).
Proof.
  induction G as [|[k g] G IH]; simpl.
  - right. split; [tauto|reflexivity].
  - destruct (eqb kx k) eqn:E; [now left|].
    destruct IH as [IH|[Hnot IH]]; simpl; rewrite IH; [now left|].
    right. split; [|reflexivity].
    intros [Hk|Hin]; [|contradiction].
    subst k. assert (eqb kx kx = true) by now apply eqb_spec. congruence.
Qed.

Lemma groupBy_NoDup (l : list A) : NoDup (map fst (groupBy eqb key l)).
Proof.
  induction l as [|x l IH] using rev_ind; [constructor|].
  rewrite groupBy_snoc.
  destruct (addToGroup_keys (key x) x (groupBy eqb key l)) as [E|[Hnot E]];
    rewrite E; [exact IH|].
  apply NoDup_app; [exact IH|repeat constructor; tauto|].
  intros k Hk [<-|[]]. contradiction.
Qed.

Lemma NoDup_keys_unique (G : list (K * list A)) (k : K) (g1 g2 : list A) :
  NoDup (map fst G) -> In (k, g1) G -> In (k, g2) G -> g1 = g2.
Proof.
  induction G as [|[k' g'] G IH]; simpl; [tauto|].
  intros Hnd [H1|H1] [H2|H2]; inversion Hnd as [|? ? Hnot Hnd']; subst.
  - congruence.
  - injection H1 as -> ->. exfalso. apply Hnot.
    now apply (in_map fst) in H2.
  - injection H2 as -> ->. exfalso. apply Hnot.
    now apply (in_map fst) in H1.
  - now apply IH.
Qed.

(** A group holds every element of the input that has its key. *)
Lemma groupBy_complete (l : list A) (k : K) (g : list A) (x : A) :
  In (k, g) (groupBy eqb key l) -> In x l -> key x = k -> In x g.
Proof.
  intros Hg Hx Hk.
  destruct (groupBy_covers _ _ eqb key eqb_spec l x Hx) as (g' & Hg' & Hxg').
  rewrite Hk in Hg'.
  now rewrite (NoDup_keys_unique _ _ _ _ (groupBy_NoDup l) Hg Hg').
Qed.

End GroupByKeys.

(** Two keys that tell the same elements apart give the same groups. *)
Section SamePartition.

Variables (A K1 K2 : Type) (eqb1 : K1 -> K1 -> bool) (eqb2 : K2 -> K2 -> bool).
Variables (key1 : A -> K1) (key2 : A -> K2).
Hypothesis eqb1_spec : forall a b, eqb1 a b = true <-> a = b.
Hypothesis eqb2_spec : forall a b, eqb2 a b = true <-> a = b.


Lemma addToGroup_same_partition (seen : list A) (x : A)
  (G1 : list (K1 * list A)) (G2 : list (K2 * list A)) :
  (forall y, In y seen -> (key1 x = key1 y <-> key2 x = key2 y)) ->
  Forall2 (sameGroup key1 key2 seen) G1 G2 ->
  Forall2 (sameGroup key1 key2 (seen ++ [x]))
          (addToGroup eqb1 (key1 x) x G1) (addToGroup eqb2 (key2 x) x G2).
Proof.
  intros Hx. induction 1 as [|[k1 g1] [k2 g2] G1 G2 (Hg & Hne & Hmem) HF IH].
  - simpl. constructor; [|constructor].
    split; [reflexivity|]. split; [discriminate|].
    simpl. intros y [<-|[]]. split; [|auto]. apply in_or_app. right. now left.
  - simpl in Hg, Hne, Hmem. subst g2.
    assert (Hsame : eqb1 (key1 x) k1 = eqb2 (key2 x) k2).
    { destruct g1 as [|y g1]; [congruence|].
      destruct (Hmem y (or_introl eq_refl)) as (Hy & <- & <-).
      specialize (Hx y Hy).
      destruct (eqb1 (key1 x) (key1 y)) eqn:E1, (eqb2 (key2 x) (key2 y)) eqn:E2;
        try reflexivity.
      - apply eqb1_spec, Hx, eqb2_spec in E1. congruence.
      - apply eqb2_spec, Hx, eqb1_spec in E2. congruence. }
    simpl. rewrite <- Hsame.
    assert (Hlift : forall G1' G2',
               Forall2 (sameGroup key1 key2 seen) G1' G2' ->
               Forall2 (sameGroup key1 key2 (seen ++ [x])) G1' G2').
    { intros G1' G2' HF'. eapply Forall2_impl; [|exact HF'].
      intros p q (E & N & Hm). split; [exact E|]. split; [exact N|].
      intros y Hy. destruct (Hm y Hy) as (Hs & ? & ?).
      split; [apply in_or_app; now left|auto]. }
    destruct (eqb1 (key1 x) k1) eqn:E1.
    + constructor; [|now apply Hlift].
      split; [reflexivity|]. split; [now destruct g1|].
      simpl. intros y Hy. apply in_app_or in Hy. destruct Hy as [Hy|[<-|[]]].
      * destruct (Hmem y Hy) as (Hs & ? & ?).
        split; [apply in_or_app; now left|auto].
      * split; [apply in_or_app; right; now left|].
        split; [now apply eqb1_spec|].
        apply eqb2_spec. now rewrite <- Hsame.
    + constructor; [|exact IH].
      split; [reflexivity|]. split; [exact Hne|].
      simpl. intros y Hy. destruct (Hmem y Hy) as (Hs & ? & ?).
      split; [apply in_or_app; now left|auto].
Qed.

Lemma groupBy_same_partition (l : list A) :
  (forall x y, In x l -> In y l -> (key1 x = key1 y <-> key2 x = key2 y)) ->
  map snd (groupBy eqb1 key1 l) = map snd (groupBy eqb2 key2 l).
Proof.
  intros Hl.
  assert (HF : Forall2 (sameGroup key1 key2 l) (groupBy eqb1 key1 l) (groupBy eqb2 key2 l)).
  { induction l as [|x l IH] using rev_ind; [constructor|].
    rewrite !groupBy_snoc. apply addToGroup_same_partition.
    - intros y Hy. apply Hl; apply in_or_app; [right; now left|now left].
    - apply IH. intros a b Ha Hb. apply Hl; apply in_or_app; now left. }
  clear Hl. induction HF as [|p q G1 G2 (E & _) HF IH]; simpl;
    [reflexivity|now rewrite E, IH].
Qed.

End SamePartition.

(** ** The grouping loop, run on a store *)

Section MonthlyRun.

Context {host : Host}.

Lemma daysOf_cons (base : nat) (k : string) (g : list PunchRecord)
  (G : list (string * list PunchRecord)) :
  daysOf base ((k, g) :: G) = (k, base) :: daysOf (S base) G.
Proof. reflexivity. Qed.

Lemma daysOf_snd (G : list (string * list PunchRecord)) :
  forall base, map snd (daysOf base G) = seq base (List.length G).
Proof.
  induction G as [|[k g] G IH]; intros base; [reflexivity|].
  rewrite daysOf_cons. simpl. now rewrite IH.
Qed.

Lemma snoc_app (s t : Store) (x : list PunchRecord) :
  (s ++ [x]) ++ t = s ++ x :: t.
Proof. now rewrite <- app_assoc. Qed.

Lemma length_snoc (s : Store) (x : list PunchRecord) :
  List.length (s ++ [x]) = S (List.length s).
Proof. rewrite length_app. simpl. apply Nat.add_1_r. Qed.

(** One pass of the callback: the arrays of the groups sit at the end of
    the store, and the callback does to them what [addToGroup] does to the
    groups. *)
Lemma groupRecord_run (r : PunchRecord) (G : list (string * list PunchRecord)) :
  forall s0 : Store,
  groupRecord (daysOf (List.length s0) G) r (s0 ++ map snd G)
  = (daysOf (List.length s0) (addToGroup String.eqb (dayKey r) r G),
     s0 ++ map snd (addToGroup String.eqb (dayKey r) r G)).
Proof.
  induction G as [|[k g] G IH]; intros s0.
  - unfold groupRecord, bind, newArr, pushArr, ret. simpl.
    rewrite app_nil_r.
    rewrite contents_app_length, setNth_app_length.
    reflexivity.
  - specialize (IH (s0 ++ [g])).
    rewrite length_snoc, snoc_app in IH.
    unfold groupRecord in *. rewrite daysOf_cons.
    cbn [lookupKey addToGroup].
    destruct (dayKey r =? k)%string eqn:E.
    + unfold bind, pushArr, ret. cbn [map snd].
      rewrite contents_app_length, setNth_app_length.
      reflexivity.
    + rewrite daysOf_cons. cbn [map snd].
      destruct (lookupKey (dayKey r) (daysOf (S (List.length s0)) G)) as [a|].
      * unfold bind, pushArr, ret in *.
        injection IH as IH1 IH2. rewrite IH2, <- IH1, snoc_app. reflexivity.
      * unfold bind, newArr, pushArr, ret in *.
        injection IH as IH1 IH2. rewrite IH2, <- IH1, snoc_app. reflexivity.
Qed.

Lemma groupLoop_run (l : list PunchRecord) :
  forall (G : list (string * list PunchRecord)) (s0 : Store),
  foldM groupRecord l (daysOf (List.length s0) G) (s0 ++ map snd G)
  = (daysOf (List.length s0)
       (fold_left (fun G x => addToGroup String.eqb (dayKey x) x G) l G),
     s0 ++ map snd
             (fold_left (fun G x => addToGroup String.eqb (dayKey x) x G) l G)).
Proof.
  induction l as [|r l IH]; intros G s0; [reflexivity|].
  simpl foldM. unfold bind at 1. rewrite groupRecord_run. apply IH.
Qed.

(** [dayGroups]: the filtered copy is allocated first, the arrays of the
    groups after it; the arrays that were there are not written to. *)
Lemma dayGroups_run (records : ref) (currentMonthDate : Date) (s : Store) :
  dayGroups records currentMonthDate s
  = (daysOf (S (List.length s)) (keyGroups (contents s records) currentMonthDate),
     (s ++ [monthRecordsOf (contents s records) currentMonthDate])
     ++ map snd (keyGroups (contents s records) currentMonthDate)).
Proof.
  unfold dayGroups, filterArr, bind, readArr, newArr.
  rewrite contents_app_length.
  fold (monthRecordsOf (contents s records) currentMonthDate).
  set (mr := monthRecordsOf (contents s records) currentMonthDate).
  pose proof (groupLoop_run mr [] (s ++ [mr])) as H.
  simpl map in H. rewrite app_nil_r, length_snoc in H.
  unfold daysOf at 1 in H. simpl in H. exact H.
Qed.

(** The second loop sorts the array of each group and adds its hours. *)
Lemma dailyLoop_run (gs : list (list PunchRecord)) :
  forall (s0 : Store) (acc : MonthAcc),
  foldM (fun acc dayRecords =>
           stats <- calculateDailyHours dayRecords ;; ret (addDay acc stats))
        (seq (List.length s0) (List.length gs)) acc (s0 ++ gs)
  = (fold_left addDay (map dailyHours gs) acc,
     s0 ++ map sortByTimestamp gs).
Proof.
  induction gs as [|g gs IH]; intros s0 acc; [reflexivity|].
  simpl seq. simpl foldM. unfold bind at 1 2.
  rewrite calculateDailyHours_run, contents_app_length, setNth_app_length.
  unfold ret at 1.
  specialize (IH (s0 ++ [sortByTimestamp g]) (addDay acc (dailyHours g))).
  rewrite length_snoc, !snoc_app in IH.
  rewrite IH. reflexivity.
Qed.

Lemma calculateMonthlyStats_run (records : ref) (currentMonthDate : Date)
  (dailyWorkload : Q) (s : Store) :
  calculateMonthlyStats records currentMonthDate dailyWorkload s
  = (monthlyStats (contents s records) currentMonthDate dailyWorkload,
     (s ++ [monthRecordsOf (contents s records) currentMonthDate])
     ++ map sortByTimestamp
          (map snd (keyGroups (contents s records) currentMonthDate))).
Proof.
  unfold calculateMonthlyStats. unfold bind at 1. rewrite dayGroups_run.
  rewrite daysOf_snd.
  set (G := keyGroups (contents s records) currentMonthDate).
  set (mr := monthRecordsOf (contents s records) currentMonthDate).
  pose proof (dailyLoop_run (map snd G) (s ++ [mr]) (0%Q, 0%Q, 0)) as H.
  rewrite length_snoc, length_map in H.
  unfold bind at 1. rewrite H.
  unfold ret, monthlyStats. fold G. now rewrite map_map.
Qed.

End MonthlyRun.

(** ** The claims about calculateMonthlyStats *)

Lemma TimeClip_Some (t t' : Z) : TimeClip t = Some t' -> t' = t.
Proof. unfold TimeClip. destruct (Z.abs t <=? maxTime); congruence. Qed.

Lemma dateEqb_spec (a b : Z * Z * Z) : dateEqb a b = true <-> a = b.
Proof.
  destruct a as [[y1 m1] d1], b as [[y2 m2] d2]. unfold dateEqb.
  rewrite !andb_true_iff, !Z.eqb_eq. split.
  - intros [[-> ->] ->]. reflexivity.
  - intros H. injection H as -> -> ->. auto.
Qed.

(** The three sums of the second loop, one by one. *)
Lemma fold_addDay (ds : list DailyHours) :
  forall (w b : Q) (n : Z),
  fold_left addDay ds (w, b, n)
  = (fold_left Qplus (map total ds) w,
     fold_left Qplus (map break ds) b,
     n + Z.of_nat (List.length (filter (fun d => Qltb 0 (total d)) ds))).
Proof.
  induction ds as [|d ds IH]; intros w b n; simpl.
  - now rewrite Z.add_0_r.
  - rewrite IH. destruct (Qltb 0 (total d)); simpl List.length.
    + f_equal. lia.
    + reflexivity.
Qed.

Section MonthlyClaims.

Context {host : Host}.

Lemma inTargetMonth_inMonthOf (date : Date) (r : PunchRecord) :
  inTargetMonth (getMonth date) (getFullYear date) r = inMonthOf date r.
Proof.
  unfold inTargetMonth, inMonthOf, localDateOf, newDate, getMonth, getFullYear,
    strictEq, localDate.
  destruct (TimeClip (timestamp r)), date; reflexivity.
Qed.

(** A record kept by the filter has a valid date, in the month and year of
    the reference date. *)
Lemma monthRecordsOf_In (l : list PunchRecord) (date : Date) (r : PunchRecord) :
  In r (monthRecordsOf l date) ->
  In r l
  /\ exists t0, date = Some t0
     /\ newDate (timestamp r) = Some (timestamp r)
     /\ MonthFromTime (LocalTime (timestamp r)) = MonthFromTime (LocalTime t0)
     /\ YearFromTime (LocalTime (timestamp r)) = YearFromTime (LocalTime t0).
Proof.
  unfold monthRecordsOf. rewrite filter_In. intros [Hin H]. split; [exact Hin|].
  unfold inTargetMonth, newDate, getMonth, getFullYear, strictEq in *.
  destruct (TimeClip (timestamp r)) as [t|] eqn:Et; [|discriminate].
  apply TimeClip_Some in Et. subst t.
  destruct date as [t0|]; [|discriminate]. simpl in H.
  apply andb_true_iff in H. destruct H as [Hm Hy].
  apply Z.eqb_eq in Hm, Hy. exists t0. auto.
Qed.

(** Among the records of the month, the key tells apart exactly the local
    calendar days. *)
Lemma dayKey_localDate (l : list PunchRecord) (date : Date) (x y : PunchRecord) :
  tellsDaysApart host ->
  In x (monthRecordsOf l date) -> In y (monthRecordsOf l date) ->
  (dayKey x = dayKey y <-> localDate (timestamp x) = localDate (timestamp y)).
Proof.
  intros Hhost Hx Hy.
  destruct (monthRecordsOf_In _ _ _ Hx) as (_ & t0 & Hd & Vx & Mx & Yx).
  destruct (monthRecordsOf_In _ _ _ Hy) as (_ & t1 & Hd' & Vy & My & Yy).
  assert (t1 = t0) by congruence. subst t1.
  unfold dayKey, toLocaleDateString, localDate. rewrite Vx, Vy.
  rewrite Mx, Yx, My, Yy. split.
  - intros H. apply Hhost in H; try apply DateFromTime_range. now rewrite H.
  - intros H. injection H as ->. reflexivity.
Qed.

Lemma keyGroups_by_local_date (l : list PunchRecord) (date : Date) :
  tellsDaysApart host ->
  map snd (keyGroups l date)
  = map snd (groupBy dateEqb (fun r => localDate (timestamp r))
               (monthRecordsOf l date)).
Proof.
  intros Hhost. unfold keyGroups.
  apply groupBy_same_partition.
  - apply String.eqb_eq.
  - apply dateEqb_spec.
  - intros x y Hx Hy. now apply dayKey_localDate with l date.
Qed.

Lemma monthlyStats_spec (l : list PunchRecord) (date : Date) (w : Q) :
  tellsDaysApart host ->
  monthlyStats l date w = computeMonthly_spec l date w.
Proof.
  intros Hhost. unfold monthlyStats, computeMonthly_spec.
  rewrite <- (map_map snd dailyHours), (keyGroups_by_local_date _ _ Hhost).
  unfold monthRecordsOf.
  rewrite (filter_ext _ _ (inTargetMonth_inMonthOf date)).
  rewrite fold_addDay. reflexivity.
Qed.


Lemma daysOf_In (G : list (string * list PunchRecord)) :
  forall (s0 : Store) (k : string) (a : ref),
  In (k, a) (daysOf (List.length s0) G) ->
  In (k, contents (s0 ++ map snd G) a) G.
Proof.
  induction G as [|[k' g'] G IH]; intros s0 k a; [intros []|].
  rewrite daysOf_cons. cbn [map snd]. intros [H|H].
  - injection H as <- <-. left. now rewrite contents_app_length.
  - right. specialize (IH (s0 ++ [g']) k a).
    rewrite length_snoc, snoc_app in IH. now apply IH.
Qed.

Lemma daysOf_In_conv (G : list (string * list PunchRecord)) :
  forall (s0 : Store) (k : string) (g : list PunchRecord),
  In (k, g) G ->
  exists a, In (k, a) (daysOf (List.length s0) G)
            /\ contents (s0 ++ map snd G) a = g.
Proof.
  induction G as [|[k' g'] G IH]; intros s0 k g; [intros []|].
  rewrite daysOf_cons. cbn [map snd]. intros [H|H].
  - injection H as <- <-. exists (List.length s0).
    split; [now left|apply contents_app_length].
  - destruct (IH (s0 ++ [g']) k g H) as (a & Ha & Hc).
    rewrite length_snoc in Ha. rewrite snoc_app in Hc.
    exists a. split; [now right|exact Hc].
Qed.

(** C3.  When the default locale tells the days of a month apart, the
    groups built by [calculateMonthlyStats] are the local calendar days:
    two records that share a group have the same local date, and two
    records of the target month with the same local date share a group. *)
Theorem dayGroups_by_local_date (records : ref) (currentMonthDate : Date)
  (s : Store) :
  tellsDaysApart host ->
  let days := fst (dayGroups records currentMonthDate s) in
  let s' := snd (dayGroups records currentMonthDate s) in
  let monthRecords := monthRecordsOf (contents s records) currentMonthDate in
  (forall r1 r2, inSameGroup days s' r1 r2 ->
     localDate (timestamp r1) = localDate (timestamp r2))
  /\ (forall r1 r2, In r1 monthRecords -> In r2 monthRecords ->
        localDate (timestamp r1) = localDate (timestamp r2) ->
        inSameGroup days s' r1 r2)
  /\ (forall r k a, In (k, a) days -> In r (contents s' a) -> In r monthRecords).
Proof.
  intros Hhost. rewrite dayGroups_run. cbn [fst snd].
  unfold keyGroups.
  set (l := contents s records).
  set (mr := monthRecordsOf l currentMonthDate).
  set (G := groupBy String.eqb dayKey mr).
  assert (Hlen : S (List.length s) = List.length (s ++ [mr]))
    by (symmetry; apply length_snoc).
  rewrite Hlen.
  assert (Hmem : forall r k a,
             In (k, a) (daysOf (List.length (s ++ [mr])) G) ->
             In r (contents ((s ++ [mr]) ++ map snd G) a) ->
             In r mr /\ dayKey r = k).
  { intros r k a Ha Hr. apply daysOf_In in Ha.
    apply (groupBy_members _ _ String.eqb dayKey String.eqb_eq mr _ _ Ha r Hr). }
  repeat split.
  - intros r1 r2 (k & a & Ha & H1 & H2).
    destruct (Hmem _ _ _ Ha H1) as [M1 K1], (Hmem _ _ _ Ha H2) as [M2 K2].
    apply (dayKey_localDate l currentMonthDate r1 r2 Hhost M1 M2). congruence.
  - intros r1 r2 M1 M2 Hsame.
    apply (dayKey_localDate l currentMonthDate r1 r2 Hhost M1 M2) in Hsame.
    destruct (groupBy_covers _ _ String.eqb dayKey String.eqb_eq mr r1 M1)
      as (g & Hg & H1).
    fold G in Hg.
    destruct (daysOf_In_conv G (s ++ [mr]) _ _ Hg) as (a & Ha & Hc).
    exists (dayKey r1), a. split; [exact Ha|].
    rewrite Hc.
    split; [exact H1|].
    apply (groupBy_complete _ _ String.eqb dayKey String.eqb_eq mr _ _ r2 Hg M2).
    now symmetry.
  - intros r k a Ha Hr. now destruct (Hmem _ _ _ Ha Hr).
Qed.

End MonthlyClaims.

(** ** groupRecordsByDay, run on a store *)

Lemma mapM_length {A B : Type} (f : A -> M B) (l : list A) :
  forall s, List.length (fst (mapM f l s)) = List.length l.
Proof.
  induction l as [|x l IH]; intros s; [reflexivity|].
  simpl. unfold bind. destruct (f x s) as [y s1].
  specialize (IH s1). destruct (mapM f l s1) as [ys s2].
  simpl in *. now rewrite IH.
Qed.

Section RowsRun.

Context {host : Host}.

(** One turn of the loop allocates the filtered copy, sorts that copy, and
    leaves it sorted. *)
Lemma buildRow_run (records : ref) (targetMonth targetYear i : Z) (s : Store) :
  buildRow records targetMonth targetYear i s
  = (rowOf (contents s records) targetMonth targetYear i,
     s ++ [dayRecordsOf (contents s records) targetMonth targetYear i]).
Proof.
  unfold buildRow, filterArr, findArr, sortArr, readArr, newArr, bind, ret.
  rewrite contents_app_length, setNth_app_length.
  rewrite calculateDailyHours_run.
  rewrite !contents_app_length, setNth_app_length.
  rewrite sortByTimestamp_idempotent.
  reflexivity.
Qed.

Lemma rows_days (records : ref) (targetMonth targetYear : Z) (l : list Z) :
  forall s,
  map day (fst (mapM (buildRow records targetMonth targetYear) l s))
  = map pad2 l.
Proof.
  induction l as [|i l IH]; intros s; [reflexivity|].
  simpl. unfold bind. rewrite buildRow_run.
  specialize (IH (s ++ [dayRecordsOf (contents s records) targetMonth targetYear i])).
  destruct (mapM _ l _) as [ys s2]. simpl in *. now rewrite IH.
Qed.

Lemma rowsLoop_run (records : ref) (targetMonth targetYear : Z)
  (rs : list PunchRecord) (l : list Z) :
  forall s,
  (records < List.length s)%nat -> contents s records = rs ->
  mapM (buildRow records targetMonth targetYear) l s
  = (map (rowOf rs targetMonth targetYear) l,
     s ++ map (dayRecordsOf rs targetMonth targetYear) l).
Proof.
  induction l as [|i l IH]; intros s Hvalid Hrs.
  - simpl. unfold ret. now rewrite app_nil_r.
  - simpl. unfold bind. rewrite buildRow_run, Hrs.
    rewrite IH.
    + unfold ret. now rewrite snoc_app.
    + rewrite length_snoc. lia.
    + now rewrite contents_app_lt.
Qed.

Lemma groupRecordsByDay_run (records : ref) (targetMonth targetYear : Z)
  (s : Store) :
  (records < List.length s)%nat ->
  groupRecordsByDay records targetMonth targetYear s
  = (map (rowOf (contents s records) targetMonth targetYear)
         (loopDays (daysInMonth targetMonth targetYear)),
     s ++ map (dayRecordsOf (contents s records) targetMonth targetYear)
              (loopDays (daysInMonth targetMonth targetYear))).
Proof. intros H. unfold groupRecordsByDay. now apply rowsLoop_run. Qed.

End RowsRun.

(** ** The claims about groupRecordsByDay *)

(** A day of a month of a year that [Date] can hold entirely is within the
    range of day numbers, with a day to spare on either side. *)
Lemma MakeDay_bound (yr month date : Z) :
  -271820 <= yr <= 275759 -> 0 <= month <= 12 -> 0 <= date <= 32 ->
  -99999999 <= MakeDay yr month date <= 99999999.
Proof.
  intros Hy Hm Hd.
  unfold MakeDay, dayFromMonthStart, marchYearOf, marchMonthOf, monthStartInEra,
    daysPerEra, epochShift.
  destruct (month mod 12 <=? 1); Z.div_mod_to_equations; lia.
Qed.

Lemma fullYearOf_range (year : Z) :
  -271820 <= year <= 275759 -> -271820 <= fullYearOf year <= 275759.
Proof.
  intros H. unfold fullYearOf.
  destruct ((0 <=? year) && (year <=? 99)) eqn:E; [|lia].
  apply andb_true_iff in E. rewrite !Z.leb_le in E. lia.
Qed.

Section RowsClaims.

Context {host : Host}.

(** [new Date(year, month, date)] is a valid date, and read back in local
    time it is the day that [MakeDay] numbers. *)
Lemma newDateYMD_fields (year month date : Z) :
  keepsMidnightOnItsDay host ->
  -271820 <= year <= 275759 -> 0 <= month <= 12 -> 0 <= date <= 32 ->
  getFullYear (newDateYMD year month date)
  = Some (YearFromDay (MakeDay (fullYearOf year) month date))
  /\ getMonth (newDateYMD year month date)
     = Some (monthOfEraDay (dayOfEra (MakeDay (fullYearOf year) month date)))
  /\ getDate (newDateYMD year month date)
     = Some (dateOfEraDay (dayOfEra (MakeDay (fullYearOf year) month date))).
Proof.
  intros [Htz Hmid] Hy Hm Hd. unfold newDateYMD.
  pose proof (MakeDay_bound _ month date (fullYearOf_range _ Hy) Hm Hd) as Hday.
  set (D := MakeDay (fullYearOf year) month date) in *.
  assert (Hclip : TimeClip (UTC (MakeDate D 0)) = Some (UTC (MakeDate D 0))).
  { unfold TimeClip.
    destruct (Z.leb_spec (Z.abs (UTC (MakeDate D 0))) maxTime) as [|Hgt];
      [reflexivity|].
    exfalso. unfold UTC, MakeDate in Hgt.
    specialize (Htz (D * msPerDay + 0) false).
    unfold msPerDay, maxTime in *. lia. }
  rewrite Hclip. cbn [getFullYear getMonth getDate option_map].
  unfold YearFromTime, MonthFromTime, DateFromTime. rewrite Hmid.
  auto.
Qed.


Lemma onDay_onLocalDate (i targetMonth targetYear : Z) (r : PunchRecord) :
  onDay i targetMonth targetYear r = onLocalDate (targetYear, targetMonth, i) r.
Proof.
  unfold onDay, onLocalDate, localDateOf, newDate, getDate, getMonth,
    getFullYear, strictEq, localDate, dateEqb.
  destruct (TimeClip (timestamp r)); cbn [option_map]; [|reflexivity].
  destruct (DateFromTime (LocalTime z) =? i),
           (MonthFromTime (LocalTime z) =? targetMonth),
           (YearFromTime (LocalTime z) =? targetYear); reflexivity.
Qed.

Lemma onLocalDate_valid (d : Z * Z * Z) (r : PunchRecord) :
  onLocalDate d r = true -> newDate (timestamp r) = Some (timestamp r).
Proof.
  unfold onLocalDate, localDateOf, newDate.
  destruct (TimeClip (timestamp r)) as [t|] eqn:E; [|discriminate].
  apply TimeClip_Some in E. now subst.
Qed.

(** [find] on the sorted records of the day shows an earliest record of
    the type, or nothing. *)
Lemma cell_showsEarliest (d : Z * Z * Z) (l : list PunchRecord) (ty : string) :
  showsEarliest (filter (onLocalDate d) l) ty
    (cell (find (hasType ty) (sortByTimestamp (filter (onLocalDate d) l)))).
Proof.
  set (f := filter (onLocalDate d) l).
  destruct (find (hasType ty) (sortByTimestamp f)) as [r0|] eqn:Efind; split.
  - intros r Hr Hty Hmin.
    pose proof (find_some _ _ Efind) as [Hin0 Hty0].
    apply (proj1 (sortByTimestamp_In _ _)) in Hin0.
    unfold hasType in Hty0. apply String.eqb_eq in Hty0.
    assert (timestamp r0 <= timestamp r).
    { apply (find_sorted_earliest _ _ _ (sortByTimestamp_sorted f) Efind).
      - now apply sortByTimestamp_In.
      - unfold hasType. now apply String.eqb_eq. }
    assert (timestamp r <= timestamp r0) by now apply Hmin.
    assert (E : timestamp r0 = timestamp r) by lia.
    unfold cell. subst f. apply filter_In in Hin0. destruct Hin0 as [_ Hd].
    rewrite (onLocalDate_valid _ _ Hd). unfold toLocaleTimeStringPtBR, hhmm.
    now rewrite E.
  - intros Hnone. exfalso.
    pose proof (find_some _ _ Efind) as [Hin0 Hty0].
    apply (proj1 (sortByTimestamp_In _ _)) in Hin0.
    unfold hasType in Hty0. apply String.eqb_eq in Hty0.
    now apply (Hnone r0).
  - intros r Hr Hty _. exfalso.
    apply (proj2 (sortByTimestamp_In f r)) in Hr.
    pose proof (find_none _ _ Efind r Hr) as Hno.
    unfold hasType in Hno. apply String.eqb_neq in Hno. contradiction.
  - reflexivity.
Qed.

Lemma rowOf_shows (l : list PunchRecord) (targetMonth targetYear i : Z) :
  rowShows l targetMonth targetYear i (rowOf l targetMonth targetYear i).
Proof.
  unfold rowShows, rowOf, dayRecordsOf. cbn [entrada almocoSaida almocoVolta saida totalHoras].
  rewrite (filter_ext _ _ (onDay_onLocalDate i targetMonth targetYear)).
  repeat split; try apply cell_showsEarliest.
  now rewrite dailyHours_sorted.
Qed.


End RowsClaims.

(** ** Calling twice, and what happens to the array of the caller *)

Section Effects.

Context {host : Host}.

(** C7.  Each of the three functions, called a second time on the same
    array right after the first call, returns the same result: the first
    call of [calculateDailyHours] leaves the array sorted, which changes
    nothing for the second, and the other two do not write to it. *)
Theorem aggregators_repeatable (records : ref) (currentMonthDate : Date)
  (dailyWorkload : Q) (targetMonth targetYear : Z) (s : Store) :
  (records < List.length s)%nat ->
  fst (calculateDailyHours records (snd (calculateDailyHours records s)))
  = fst (calculateDailyHours records s)
  /\ fst (calculateMonthlyStats records currentMonthDate dailyWorkload
            (snd (calculateMonthlyStats records currentMonthDate dailyWorkload s)))
     = fst (calculateMonthlyStats records currentMonthDate dailyWorkload s)
  /\ fst (groupRecordsByDay records targetMonth targetYear
            (snd (groupRecordsByDay records targetMonth targetYear s)))
     = fst (groupRecordsByDay records targetMonth targetYear s).
Proof.
  intros Hvalid. repeat split.
  - rewrite !calculateDailyHours_run. cbn [fst snd].
    rewrite contents_setNth_same by exact Hvalid.
    apply dailyHours_sorted.
  - rewrite !calculateMonthlyStats_run. cbn [fst snd].
    rewrite !contents_app_lt; [reflexivity|exact Hvalid|].
    rewrite length_app. lia.
  - rewrite (groupRecordsByDay_run _ _ _ s Hvalid). cbn [fst snd].
    rewrite groupRecordsByDay_run by (rewrite length_app; lia).
    cbn [fst]. now rewrite contents_app_lt.
Qed.

(** C8, as stated, fails: [calculateDailyHours] sorts the array it is
    given.  An array holding EXIT at 2 then ENTRY at 1 holds ENTRY then
    EXIT after the call. *)
Lemma calculateDailyHours_reorders_input :
  let s := [[mkPunch "b" 2 PunchType.EXIT None; mkPunch "a" 1 PunchType.ENTRY None]] in
  contents (snd (calculateDailyHours 0%nat s)) 0%nat <> contents s 0%nat.
Proof. vm_compute. discriminate. Qed.

(** C8, amended.  [calculateMonthlyStats] and [groupRecordsByDay] leave
    every array that existed before the call as it was: they sort only
    arrays they allocate.  [calculateDailyHours] sorts the array it is
    given in place: after the call the array holds the same records in
    ascending order of timestamp, so it is unchanged when it was already
    in that order; no other array is written to. *)
Theorem aggregators_frame (records : ref) (currentMonthDate : Date)
  (dailyWorkload : Q) (targetMonth targetYear : Z) (s : Store) :
  (records < List.length s)%nat ->
  (forall a, (a < List.length s)%nat ->
     contents (snd (calculateMonthlyStats records currentMonthDate dailyWorkload s)) a
     = contents s a)
  /\ (forall a, (a < List.length s)%nat ->
        contents (snd (groupRecordsByDay records targetMonth targetYear s)) a
        = contents s a)
  /\ contents (snd (calculateDailyHours records s)) records
     = sortByTimestamp (contents s records)
  /\ Permutation (contents (snd (calculateDailyHours records s)) records)
                 (contents s records)
  /\ (StronglySorted tsLe (contents s records) ->
      contents (snd (calculateDailyHours records s)) records = contents s records)
  /\ (forall a, a <> records ->
        contents (snd (calculateDailyHours records s)) a = contents s a).
Proof.
  intros Hvalid.
  assert (Hsorted : contents (snd (calculateDailyHours records s)) records
                    = sortByTimestamp (contents s records)).
  { rewrite calculateDailyHours_run. cbn [snd].
    now apply contents_setNth_same. }
  repeat split.
  - intros a Ha. rewrite calculateMonthlyStats_run. cbn [snd].
    rewrite !contents_app_lt; [reflexivity|exact Ha|].
    rewrite length_app. lia.
  - intros a Ha. rewrite groupRecordsByDay_run by exact Hvalid. cbn [snd].
    now apply contents_app_lt.
  - exact Hsorted.
  - rewrite Hsorted. apply sortByTimestamp_perm.
  - intros H. rewrite Hsorted. now apply sortByTimestamp_of_sorted.
  - intros a Ha. rewrite calculateDailyHours_run. cbn [snd].
    apply contents_setNth_other. congruence.
Qed.

End Effects.

(** ** A host that meets the assumptions *)

Lemma append_same_length_inj (a b x y : string) :
  String.length a = String.length b -> (a ++ x)%string = (b ++ y)%string -> a = b.
Proof.
  revert b. induction a as [|c a IH]; intros [|c' b]; simpl; try discriminate.
  - reflexivity.
  - intros Hlen H. injection Hlen as Hlen. injection H as -> H.
    f_equal. now apply IH.
Qed.

Lemma pad2_days (d d' : Z) :
  1 <= d <= 31 -> 1 <= d' <= 31 ->
  String.length (pad2 d) = 2%nat /\ (pad2 d = pad2 d' -> d = d').
Proof.
  intros Hd Hd'.
  assert (Hall : allBelow 32 (fun a =>
            (a <? 1) || ((String.length (pad2 a) =? 2)%nat
                         && allBelow 32 (fun b =>
                              (b <? 1) || implb (pad2 a =? pad2 b)%string (a =? b))))
          = true) by (vm_compute; reflexivity).
  pose proof (allBelow_spec _ _ Hall d ltac:(lia)) as H. cbv beta in H.
  apply orb_true_iff in H. destruct H as [H|H]; [apply Z.ltb_lt in H; lia|].
  apply andb_true_iff in H. destruct H as [Hlen Hinj].
  apply Nat.eqb_eq in Hlen. split; [exact Hlen|].
  intros E. pose proof (allBelow_spec _ _ Hinj d' ltac:(lia)) as H.
  cbv beta in H. apply orb_true_iff in H.
  destruct H as [H|H]; [apply Z.ltb_lt in H; lia|].
  rewrite E, String.eqb_refl in H. simpl in H. now apply Z.eqb_eq.
Qed.

Lemma brasiliaHost_tellsDaysApart : tellsDaysApart brasiliaHost.
Proof.
  intros y m d d' Hd Hd' H. cbn [hostDateString brasiliaHost] in H.
  destruct (pad2_days d d' Hd Hd') as [Hlen Hinj].
  destruct (pad2_days d' d Hd' Hd) as [Hlen' _].
  apply Hinj. apply append_same_length_inj in H; [exact H|congruence].
Qed.

Lemma brasiliaHost_keepsMidnight : keepsMidnightOnItsDay brasiliaHost.
Proof.
  split.
  - intros t b. cbn. unfold msPerDay. lia.
  - intros d. unfold LocalTime, UTC. cbn [LocalTZA brasiliaHost].
    replace (MakeDate d 0 - -10800000 + -10800000) with (MakeDate d 0) by ring.
    apply Day_MakeDate.
Qed.

(** ** The theorems at work on the sample day, in Brasilia *)

Section Brasilia.

Local Existing Instance brasiliaHost.


(** The entry of 09:00 and the exit of 18:00 of 15 March share a group;
    the exit of 23:59 and the entry of 00:01 the next day do not. *)
Lemma dayGroups_by_local_date_witness :
  inSameGroup (fst (dayGroups 0%nat sampleDate [sampleRecords]))
              (snd (dayGroups 0%nat sampleDate [sampleRecords]))
              (mkPunch "1" 1710504000000 PunchType.ENTRY None)
              (mkPunch "4" 1710536400000 PunchType.EXIT None)
  /\ ~ inSameGroup (fst (dayGroups 0%nat sampleDate [[lateExit; earlyEntry]]))
                   (snd (dayGroups 0%nat sampleDate [[lateExit; earlyEntry]]))
                   lateExit earlyEntry.
Proof.
  split.
  - destruct (dayGroups_by_local_date 0%nat sampleDate [sampleRecords]
                brasiliaHost_tellsDaysApart) as (_ & Hsame & _).
    apply Hsame.
    + vm_compute. tauto.
    + vm_compute. tauto.
    + vm_compute. reflexivity.
  - destruct (dayGroups_by_local_date 0%nat sampleDate [[lateExit; earlyEntry]]
                brasiliaHost_tellsDaysApart) as (Hdiff & _ & _).
    intros Hsame. apply Hdiff in Hsame. vm_compute in Hsame. discriminate.
Defined.



Lemma aggregators_repeatable_witness :
  fst (calculateDailyHours 0%nat (snd (calculateDailyHours 0%nat [sampleRecords])))
  = fst (calculateDailyHours 0%nat [sampleRecords]).
Proof.
  apply (aggregators_repeatable 0%nat sampleDate 480 2 2024 [sampleRecords]).
  simpl. lia.
Defined.

Lemma aggregators_frame_witness :
  contents (snd (groupRecordsByDay 0%nat 2 2024 [sampleRecords])) 0%nat
  = contents [sampleRecords] 0%nat.
Proof.
  destruct (aggregators_frame 0%nat sampleDate 480 2 2024 [sampleRecords]
              ltac:(simpl; lia)) as (_ & Hrows & _).
  apply Hrows. simpl. lia.
Defined.

(** Section 8 of the specification, last item: with two entries before
    one exit the row shows the earlier entry, 08:00, while the total, eight
    hours, runs from the later one. *)
Example duplicate_entry_row :
  let rows := fst (groupRecordsByDay 0%nat 2 2024 [duplicateEntryDay]) in
  option_map (fun r => (day r, dateFull r, entrada r, saida r, totalHoras r))
             (nth_error rows 14)
  = Some ("15", "15/03/2024", "08:00", "17:00", "8h 0m").
Proof. vm_compute. reflexivity. Qed.

End Brasilia.

(* ================================================================== *)
(* ================================================================== *)
(** * Properties of the rest of the code *)

(** ** minutesToReadable *)

Lemma Qfloor_Qabs_div60 (m : Q) :
  Qfloor (Qabs m / 60) = Qfloor (Qabs m) / 60.
Proof.
  destruct m as [a b]. unfold Qabs, Qdiv, Qmult, Qinv, Qfloor. cbn [Qnum Qden].
  rewrite Z.mul_1_r, Pos2Z.inj_mul.
  rewrite Z.div_div by lia. reflexivity.
Qed.

Lemma Qfloor_minus_hours (m : Q) (h : Z) :
  Qfloor (m - 60 * inject_Z h) = Qfloor m - 60 * h.
Proof.
  destruct m as [a b]. unfold Qminus, Qplus, Qopp, Qmult, inject_Z, Qfloor.
  cbn [Qnum Qden]. change (1 * 1)%positive with 1%positive.
  rewrite Pos.mul_1_r, Z.mul_1_r.
  rewrite Z.div_add by lia. ring.
Qed.

Lemma minutesToReadable_parts (m : Q) :
  minutesToReadable m
  = ((if Qltb m 0 then "-" else "")
     ++ numToString (Qfloor (Qabs m) / 60) ++ "h "
     ++ numToString (Qfloor (Qabs m) mod 60) ++ "m")%string.
Proof.
  unfold minutesToReadable.
  rewrite Qfloor_minus_hours, Qfloor_Qabs_div60.
  rewrite (Z.mod_eq (Qfloor (Qabs m)) 60) by lia.
  reflexivity.
Qed.

Lemma Qfloor_Qabs_nonneg (m : Q) : 0 <= Qfloor (Qabs m).
Proof.
  destruct m as [a b]. unfold Qabs, Qfloor. cbn [Qnum Qden].
  apply Z.div_pos; lia.
Qed.

Lemma Qltb_lt (a b : Q) : Qltb a b = true <-> (a < b)%Q.
Proof.
  unfold Qltb. rewrite negb_true_iff. split.
  - intros H. apply Qnot_le_lt. intros Hle. apply Qle_bool_iff in Hle. congruence.
  - intros H. destruct (Qle_bool b a) eqn:E; [|reflexivity].
    apply Qle_bool_iff in E. exfalso. exact (Qlt_not_le _ _ H E).
Qed.


(** X2.  A negative number of minutes reads as the minus sign followed by
    the reading of its opposite: the rounding is towards zero, so -0.5
    reads "-0h 0m". *)
Theorem minutesToReadable_negative (m : Q) :
  (m < 0)%Q ->
  minutesToReadable m = ("-" ++ minutesToReadable (- m))%string.
Proof.
  intros Hm. rewrite !minutesToReadable_parts.
  assert (H1 : Qltb m 0 = true) by now apply Qltb_lt.
  assert (H2 : Qltb (- m) 0 = false).
  { destruct (Qltb (- m) 0) eqn:E; [|reflexivity].
    apply Qltb_lt in E. exfalso.
    destruct m as [a b]. unfold Qlt, Qopp in *. cbn in *. lia. }
  rewrite H1, H2.
  assert (H3 : Qfloor (Qabs (- m)) = Qfloor (Qabs m)).
  { destruct m as [a b]. unfold Qabs, Qopp, Qfloor. cbn [Qnum Qden].
    now rewrite Z.abs_opp. }
  now rewrite H3.
Qed.

Lemma minutesToReadable_negative_witness :
  minutesToReadable (-1 # 2) = "-0h 0m".
Proof.
  rewrite (minutesToReadable_negative (-1 # 2)); reflexivity.
Defined.

(** ** Strings *)

Lemma lacks_append (c : ascii) (a b : string) :
  lacks c (a ++ b) = lacks c a && lacks c b.
Proof.
  induction a as [|x a IH]; simpl; [reflexivity|].
  now rewrite IH, andb_assoc.
Qed.

(** Splitting a string that lacks the separator gives the string alone. *)
Lemma splitOn_lacks (c : ascii) (s : string) :
  lacks c s = true -> splitOn c s = [s].
Proof.
  induction s as [|a s IH]; simpl; [reflexivity|].
  intros H. apply andb_true_iff in H. destruct H as [Ha Hs].
  apply negb_true_iff in Ha. rewrite Ha, (IH Hs). reflexivity.
Qed.

Lemma splitOn_append_sep (c : ascii) (a b : string) :
  lacks c a = true ->
  splitOn c (a ++ String c b) = a :: splitOn c b.
Proof.
  induction a as [|x a IH]; simpl.
  - intros _. now rewrite Ascii.eqb_refl.
  - intros H. apply andb_true_iff in H. destruct H as [Hx Ha].
    apply negb_true_iff in Hx. rewrite Hx, (IH Ha). reflexivity.
Qed.

(** [split] undoes [join] on parts that lack the separator. *)
Lemma splitOn_concat (c : ascii) (l : list string) :
  l <> [] -> Forall (fun x => lacks c x = true) l ->
  splitOn c (String.concat (String c EmptyString) l) = l.
Proof.
  induction l as [|x l IH]; [congruence|].
  intros _ Hall. inversion Hall as [|? ? Hx Hl]; subst.
  destruct l as [|y l].
  - simpl. now apply splitOn_lacks.
  - change (String.concat (String c "") (x :: y :: l))
      with (x ++ String c (String.concat (String c "") (y :: l)))%string.
    rewrite splitOn_append_sep by exact Hx.
    f_equal. apply IH; [discriminate|exact Hl].
Qed.

(** A decimal numeral is made of digits and, maybe, a minus sign. *)
Lemma string_of_uint_lacks (c : ascii) (d : Decimal.uint) :
  lacks c "-0123456789" = true ->
  lacks c (NilEmpty.string_of_uint d) = true.
Proof.
  intros H. cbn [lacks] in H. rewrite !andb_true_iff in H.
  induction d; cbn [NilEmpty.string_of_uint lacks]; try reflexivity;
    rewrite IHd, andb_true_r; tauto.
Qed.

Lemma numToString_lacks (c : ascii) (n : Z) :
  lacks c "-0123456789" = true -> lacks c (numToString n) = true.
Proof.
  intros H. unfold numToString, NilZero.string_of_int.
  assert (H0 : forall d, lacks c (NilZero.string_of_uint d) = true).
  { intros d. unfold NilZero.string_of_uint.
    destruct d; try (now apply string_of_uint_lacks).
    cbn [lacks] in *. rewrite !andb_true_iff in H. rewrite andb_true_r. tauto. }
  destruct (Z.to_int n) as [d|d]; [apply H0|].
  cbn [lacks append]. rewrite H0, andb_true_r.
  cbn [lacks] in H. rewrite !andb_true_iff in H. tauto.
Qed.

Lemma pad2_lacks (c : ascii) (n : Z) :
  lacks c "-0123456789" = true -> lacks c (pad2 n) = true.
Proof.
  intros H. unfold pad2.
  destruct (String.length (numToString n) <? 2)%nat.
  - rewrite lacks_append, (numToString_lacks c n H), andb_true_r.
    cbn [lacks] in *. rewrite !andb_true_iff in H. rewrite andb_true_r. tauto.
  - now apply numToString_lacks.
Qed.

Lemma fieldAlphabet_numeric (c : ascii) :
  lacks c fieldAlphabet = true -> lacks c "-0123456789" = true.
Proof.
  unfold fieldAlphabet. cbn [lacks]. rewrite !andb_true_iff. tauto.
Qed.

Lemma pad2_length (n : Z) : 0 <= n <= 99 -> String.length (pad2 n) = 2%nat.
Proof.
  intros Hn.
  assert (Hall : allBelow 100 (fun a => (String.length (pad2 a) =? 2)%nat) = true)
    by (vm_compute; reflexivity).
  apply Nat.eqb_eq. apply (allBelow_spec _ _ Hall n). lia.
Qed.

(** X3.  The cell of the admission date of the PDF turns year-month-day
    into day/month/year when the three parts are there, and what it
    returns it would return unchanged. *)
Theorem admissionDateFormatted_iso (y m d : string) :
  nonEmpty y = true -> nonEmpty m = true -> nonEmpty d = true ->
  lacks "-"%char y = true -> lacks "-"%char m = true -> lacks "-"%char d = true ->
  admissionDateFormatted (y ++ "-" ++ m ++ "-" ++ d) = (d ++ "/" ++ m ++ "/" ++ y)%string
  /\ admissionDateFormatted (d ++ "/" ++ m ++ "/" ++ y) = (d ++ "/" ++ m ++ "/" ++ y)%string.
Proof.
  intros Ny Nm Nd Ly Lm Ld.
  assert (Hne : forall a b : string, nonEmpty a = true -> nonEmpty (a ++ b) = true).
  { intros a b. destruct a; [discriminate|reflexivity]. }
  split; unfold admissionDateFormatted.
  - rewrite (Hne y _ Ny).
    change (y ++ "-" ++ m ++ "-" ++ d)%string
      with (y ++ String "-" (m ++ String "-" d))%string.
    rewrite (splitOn_append_sep _ y _ Ly), (splitOn_append_sep _ m _ Lm),
      (splitOn_lacks _ d Ld).
    now rewrite Ny, Nm, Nd.
  - rewrite (Hne d _ Nd).
    rewrite splitOn_lacks; [reflexivity|].
    rewrite !lacks_append, Ly, Lm, Ld. reflexivity.
Qed.

Lemma admissionDateFormatted_iso_witness :
  admissionDateFormatted "2021-02-01" = "01/02/2021".
Proof.
  apply (admissionDateFormatted_iso "2021" "02" "01"); reflexivity.
Defined.

Section CallersFacts.

Context {host : Host}.

(** X4.  The three parts App reads from [formatTime(...).split(':')] are
    there for every valid date, each of two characters: hour, minute and
    second; for an invalid date the split has one part only. *)
Theorem formatTime_parts (t : Z) :
  splitOn ":"%char (formatTime (Some t))
  = [pad2 (HourFromTime (LocalTime t)); pad2 (MinFromTime (LocalTime t));
     pad2 (SecFromTime (LocalTime t))]
  /\ Forall (fun part => String.length part = 2%nat)
            (splitOn ":"%char (formatTime (Some t)))
  /\ splitOn ":"%char (formatTime None) = ["Invalid Date"].
Proof.
  assert (E : splitOn ":"%char (formatTime (Some t))
              = [pad2 (HourFromTime (LocalTime t)); pad2 (MinFromTime (LocalTime t));
                 pad2 (SecFromTime (LocalTime t))]).
  { unfold formatTime. cbv zeta.
    change (pad2 (HourFromTime (LocalTime t)) ++ ":"
            ++ pad2 (MinFromTime (LocalTime t)) ++ ":"
            ++ pad2 (SecFromTime (LocalTime t)))%string
      with (pad2 (HourFromTime (LocalTime t))
            ++ String ":" (pad2 (MinFromTime (LocalTime t))
                           ++ String ":" (pad2 (SecFromTime (LocalTime t)))))%string.
    rewrite !splitOn_append_sep, splitOn_lacks;
      try (apply pad2_lacks; reflexivity). reflexivity. }
  split; [exact E|]. split; [|reflexivity].
  rewrite E. repeat constructor; apply pad2_length.
  - unfold HourFromTime. pose proof (Z.mod_pos_bound (LocalTime t / msPerHour) 24). lia.
  - unfold MinFromTime. pose proof (Z.mod_pos_bound (LocalTime t / msPerMinute) 60). lia.
  - unfold SecFromTime. pose proof (Z.mod_pos_bound (LocalTime t / 1000) 60). lia.
Qed.

End CallersFacts.

(** ** formatDate as the key of a day *)

Lemma marchMonth_range (doe : Z) :
  0 <= doe < daysPerEra -> 0 <= marchMonth doe <= 11.
Proof.
  intros H. unfold marchMonth, dayOfMarchYear, yearOfEra, daysPerEra in *.
  Z.div_mod_to_equations; lia.
Qed.

Lemma MonthFromTime_range (t : Z) : 0 <= MonthFromTime t <= 11.
Proof.
  unfold MonthFromTime, monthOfEraDay. cbv zeta.
  assert (H : 0 <= dayOfEra (Day t) < daysPerEra)
    by (unfold dayOfEra, daysPerEra; apply Z.mod_pos_bound; lia).
  pose proof (marchMonth_range _ H).
  destruct (Z.ltb_spec (marchMonth (dayOfEra (Day t))) 10); lia.
Qed.

Lemma to_int_proper (n : Z) :
  Z.to_int n <> Decimal.Pos Decimal.Nil /\ Z.to_int n <> Decimal.Neg Decimal.Nil.
Proof.
  destruct n as [|p|p]; cbn; split; try discriminate;
    intros E; injection E as E; exact (DecimalPos.Unsigned.to_uint_nonnil p E).
Qed.

Lemma numToString_inj (a b : Z) : numToString a = numToString b -> a = b.
Proof.
  unfold numToString. intros E.
  apply DecimalZ.to_int_inj.
  destruct (to_int_proper a) as [A1 A2], (to_int_proper b) as [B1 B2].
  pose proof (NilZero.isi _ A1 A2) as Ia. pose proof (NilZero.isi _ B1 B2) as Ib.
  rewrite E in Ia. congruence.
Qed.

Lemma pad2_inj (a b : Z) :
  0 <= a <= 99 -> 0 <= b <= 99 -> pad2 a = pad2 b -> a = b.
Proof.
  intros Ha Hb E.
  assert (Hall : allBelow 100 (fun x => allBelow 100 (fun y =>
                   implb (pad2 x =? pad2 y)%string (x =? y))) = true)
    by (vm_compute; reflexivity).
  pose proof (allBelow_spec _ _ (allBelow_spec _ _ Hall a ltac:(lia)) b ltac:(lia)) as H.
  cbv beta in H. rewrite E, String.eqb_refl in H. now apply Z.eqb_eq.
Qed.

Lemma append_inj_length (a a' b b' : string) :
  String.length a = String.length a' ->
  (a ++ b)%string = (a' ++ b')%string -> a = a' /\ b = b'.
Proof.
  revert a'. induction a as [|x a IH]; intros [|x' a']; cbn; try discriminate.
  - auto.
  - intros L E. injection L as L. injection E as -> E.
    destruct (IH a' L E) as [-> ->]. auto.
Qed.

Section DayKeyFacts.

Context {host : Host}.

(** X5.  [formatDate] is a key of the local day, which is how the chart
    picks the records of a day: for valid timestamps of year 1 or later,
    two of them read the same exactly when their local year, month and
    day are the same; and the parts between the slashes, of which the
    chart labels a day with the first two, are the day and the month on
    two digits and the year. *)
Theorem formatDate_day_key (t1 t2 : Z) :
  TimeClip t1 <> None -> TimeClip t2 <> None ->
  1 <= YearFromTime (LocalTime t1) -> 1 <= YearFromTime (LocalTime t2) ->
  splitOn "/"%char (formatDate t1)
  = [pad2 (DateFromTime (LocalTime t1)); pad2 (MonthFromTime (LocalTime t1) + 1);
     numToString (YearFromTime (LocalTime t1))]
  /\ (formatDate t1 = formatDate t2 <-> localDate t1 = localDate t2).
Proof.
  intros V1 V2 Y1 Y2. unfold formatDate, newDate.
  destruct (TimeClip t1) as [u1|] eqn:E1; [|congruence].
  destruct (TimeClip t2) as [u2|] eqn:E2; [|congruence].
  assert (U1 : u1 = t1).
  { unfold TimeClip in E1. destruct (Z.abs t1 <=? maxTime); congruence. }
  assert (U2 : u2 = t2).
  { unfold TimeClip in E2. destruct (Z.abs t2 <=? maxTime); congruence. }
  subst u1 u2. unfold toLocaleDateStringPtBR, localDate. cbv zeta.
  destruct (Z.ltb_spec 0 (YearFromTime (LocalTime t1))) as [_|]; [|lia].
  destruct (Z.ltb_spec 0 (YearFromTime (LocalTime t2))) as [_|]; [|lia].
  pose proof (DateFromTime_range (LocalTime t1)) as D1.
  pose proof (DateFromTime_range (LocalTime t2)) as D2.
  pose proof (MonthFromTime_range (LocalTime t1)) as M1.
  pose proof (MonthFromTime_range (LocalTime t2)) as M2.
  split.
  - change (pad2 (DateFromTime (LocalTime t1)) ++ "/"
            ++ pad2 (MonthFromTime (LocalTime t1) + 1) ++ "/"
            ++ numToString (YearFromTime (LocalTime t1)))%string
      with (pad2 (DateFromTime (LocalTime t1))
            ++ String "/" (pad2 (MonthFromTime (LocalTime t1) + 1)
                           ++ String "/" (numToString (YearFromTime (LocalTime t1)))))%string.
    rewrite !splitOn_append_sep, splitOn_lacks;
      try (apply pad2_lacks; reflexivity); [reflexivity|].
    apply numToString_lacks. reflexivity.
  - split.
    + intros E.
      apply append_inj_length in E;
        [|rewrite !pad2_length by lia; reflexivity].
      destruct E as [Ed E]. cbn [append] in E. injection E as E.
      apply append_inj_length in E;
        [|rewrite !pad2_length by lia; reflexivity].
      destruct E as [Em E]. cbn [append] in E. injection E as E.
      apply pad2_inj in Ed; [|lia|lia].
      apply pad2_inj in Em; [|lia|lia].
      apply numToString_inj in E.
      f_equal; [f_equal|]; lia.
    + intros E. injection E as -> -> ->. reflexivity.
Qed.

End DayKeyFacts.

(** ** exportToCSV *)

(** Closes a goal [lacks c s = true] for a literal [s] from the facts on
    the characters of the alphabet. *)
Ltac lacks_literal :=
  cbn [lacks andb]; rewrite ?andb_true_r; rewrite ?andb_true_iff; tauto.

Section CsvFacts.

Context {host : Host}.

Lemma toLocaleDateStringPtBR_lacks (c : ascii) (d : Date) :
  lacks c fieldAlphabet = true -> lacks c (toLocaleDateStringPtBR d) = true.
Proof.
  intros H. pose proof (fieldAlphabet_numeric c H) as Hnum.
  unfold fieldAlphabet in H. cbn [lacks] in H. rewrite !andb_true_iff in H.
  destruct d as [t|]; unfold toLocaleDateStringPtBR.
  - cbv zeta. rewrite !lacks_append, !pad2_lacks, numToString_lacks by exact Hnum.
    lacks_literal.
  - lacks_literal.
Qed.

Lemma toLocaleTimeStringPtBR_lacks (c : ascii) (d : Date) :
  lacks c fieldAlphabet = true -> lacks c (toLocaleTimeStringPtBR d) = true.
Proof.
  intros H. pose proof (fieldAlphabet_numeric c H) as Hnum.
  unfold fieldAlphabet in H. cbn [lacks] in H. rewrite !andb_true_iff in H.
  destruct d as [t|]; unfold toLocaleTimeStringPtBR.
  - cbv zeta. rewrite !lacks_append, !pad2_lacks by exact Hnum.
    lacks_literal.
  - lacks_literal.
Qed.

Lemma cell_lacks (c : ascii) (found : option PunchRecord) :
  lacks c fieldAlphabet = true -> lacks c (cell found) = true.
Proof.
  intros H. destruct found; [now apply toLocaleTimeStringPtBR_lacks|reflexivity].
Qed.

Lemma minutesToReadable_lacks (c : ascii) (m : Q) :
  lacks c fieldAlphabet = true -> lacks c (minutesToReadable m) = true.
Proof.
  intros H. pose proof (fieldAlphabet_numeric c H) as Hnum.
  unfold fieldAlphabet in H. cbn [lacks] in H. rewrite !andb_true_iff in H.
  rewrite minutesToReadable_parts.
  rewrite !lacks_append, !numToString_lacks by exact Hnum.
  destruct (Qltb m 0); lacks_literal.
Qed.

(** No field of a row holds a character from outside the alphabet. *)
Lemma rowOf_fields_lack (c : ascii) (l : list PunchRecord)
  (targetMonth targetYear i : Z) :
  lacks c fieldAlphabet = true ->
  Forall (fun x => lacks c x = true)
         (csvFields (rowOf l targetMonth targetYear i)).
Proof.
  intros H. unfold csvFields, rowOf. cbn [dateFull entrada almocoSaida almocoVolta saida totalHoras].
  repeat constructor;
    try apply cell_lacks; try apply toLocaleDateStringPtBR_lacks;
    try apply minutesToReadable_lacks; exact H.
Qed.

Lemma csvLine_fields (d : DayRow) :
  csvLine d = String.concat "," (csvFields d).
Proof. reflexivity. Qed.

(** Reading back the text written for rows whose fields stay within the
    alphabet gives the headers and the fields of the rows. *)
Lemma parseCsv_csvContent (rows : list DayRow) :
  Forall (fun d => Forall (fun x => lacks ","%char x = true
                                    /\ lacks "010"%char x = true) (csvFields d)) rows ->
  parseCsv (csvContent rows) = csvHeaders :: map csvFields rows.
Proof.
  intros Hrows. unfold parseCsv, csvContent.
  change lineFeed with (String "010"%char EmptyString).
  rewrite splitOn_concat; [|discriminate|].
  - cbn [map]. f_equal.
    induction Hrows as [|d rows Hd _ IH]; [reflexivity|].
    cbn [map]. rewrite IH. f_equal.
    rewrite csvLine_fields. apply splitOn_concat; [discriminate|].
    eapply Forall_impl; [|exact Hd]. cbv beta. tauto.
  - constructor; [reflexivity|].
    apply Forall_forall. intros x Hx. apply in_map_iff in Hx.
    destruct Hx as (d & <- & Hd).
    rewrite Forall_forall in Hrows. specialize (Hrows d Hd).
    rewrite csvLine_fields.
    assert (Hall : Forall (fun x => lacks "010"%char x = true) (csvFields d))
      by (eapply Forall_impl; [|exact Hrows]; cbv beta; tauto).
    clear Hrows. unfold csvFields in *.
    repeat match goal with H : Forall _ (_ :: _) |- _ => inversion H; clear H; subst end.
    cbn [String.concat]. rewrite !lacks_append.
    repeat match goal with H : lacks _ _ = true |- _ => rewrite H; clear H end.
    reflexivity.
Qed.

Lemma rows_fields_lack (l : list PunchRecord) (m y : Z) (days : list Z) :
  Forall (fun d => Forall (fun x => lacks ","%char x = true
                                    /\ lacks "010"%char x = true) (csvFields d))
         (map (rowOf l m y) days).
Proof.
  apply Forall_forall. intros d Hd. apply in_map_iff in Hd.
  destruct Hd as (i & <- & _).
  pose proof (rowOf_fields_lack ","%char l m y i eq_refl) as H1.
  pose proof (rowOf_fields_lack "010"%char l m y i eq_refl) as H2.
  rewrite Forall_forall in *. intros x Hx. split; auto.
Qed.

(** [exportToCSV] on an array that is not empty: the rows are those of the
    month of the first element, and the arrays of the days are allocated
    after the arrays that exist. *)
Lemma exportToCSV_run (records : ref) (s : Store) (first : PunchRecord)
  (rest : list PunchRecord) :
  contents s records = first :: rest ->
  exists rows s',
    rowsOfMonthOf records (newDate (timestamp first)) s = (rows, s')
    /\ (exists t, s' = s ++ t)
    /\ parseCsv (csvContent rows) = csvHeaders :: map csvFields rows
    /\ exportToCSV records s
       = (match toISOString (newDate (timestamp first)) with
          | Some iso =>
              CsvDownload
                ("folha_ponto_"
                 ++ substring 0 7 (hd EmptyString (splitOn "T"%char iso)) ++ ".csv")
                (byteOrderMark ++ csvContent rows)
          | None => CsvRangeError
          end, s').
Proof.
  intros Hc.
  assert (Hvalid : (records < List.length s)%nat)
    by (apply contents_nonempty_valid; congruence).
  assert (Hrows : exists rows s',
             rowsOfMonthOf records (newDate (timestamp first)) s = (rows, s')
             /\ (exists t, s' = s ++ t)
             /\ parseCsv (csvContent rows) = csvHeaders :: map csvFields rows).
  { unfold rowsOfMonthOf.
    destruct (getMonth (newDate (timestamp first))) as [m|];
      [destruct (getFullYear (newDate (timestamp first))) as [y|]|].
    - rewrite (groupRecordsByDay_run _ _ _ _ Hvalid).
      do 2 eexists. split; [reflexivity|]. split; [eexists; reflexivity|].
      apply parseCsv_csvContent, rows_fields_lack.
    - exists [], s. split; [reflexivity|]. split; [exists []; now rewrite app_nil_r|].
      reflexivity.
    - exists [], s. split; [reflexivity|]. split; [exists []; now rewrite app_nil_r|].
      reflexivity. }
  destruct Hrows as (rows & s' & Hrun & Hext & Hparse).
  exists rows, s'. repeat split; try assumption.
  unfold exportToCSV, bind, readArr. rewrite Hc. cbv zeta.
  rewrite Hrun.
  now destruct (toISOString (newDate (timestamp first))).
Qed.

Lemma csvDownload_blob (f b f' b' : string) :
  CsvDownload f b = CsvDownload f' b' -> b' = b.
Proof. intros H. now injection H. Qed.

Lemma rowsOfMonthOf_valid (records : ref) (t : Z) :
  rowsOfMonthOf records (Some t)
  = groupRecordsByDay records (MonthFromTime (LocalTime t))
                      (YearFromTime (LocalTime t)).
Proof.
  unfold rowsOfMonthOf. generalize (groupRecordsByDay records).
  intros g. reflexivity.
Qed.

Lemma toISOString_valid (d : Date) (iso : string) :
  toISOString d = Some iso -> exists t, d = Some t.
Proof. destruct d as [t|]; [eauto | discriminate]. Qed.

(** X6.  What [exportToCSV] downloads can be read back: after the byte
    order mark, splitting the text at line feeds and each line at commas
    gives the six headers and then, row by row, the six fields of the rows
    of [groupRecordsByDay] for the local month and year of the first
    element of the array; no field holds a comma or a line feed. *)
Theorem exportToCSV_round_trip (records : ref) (s : Store) (fileName blob : string) :
  fst (exportToCSV records s) = CsvDownload fileName blob ->
  exists first rest m y,
    contents s records = first :: rest
    /\ getMonth (newDate (timestamp first)) = Some m
    /\ getFullYear (newDate (timestamp first)) = Some y
    /\ blob = (byteOrderMark
               ++ csvContent (fst (groupRecordsByDay records m y s)))%string
    /\ parseCsv (csvContent (fst (groupRecordsByDay records m y s)))
       = csvHeaders :: map csvFields (fst (groupRecordsByDay records m y s)).
Proof.
  intros Hout.
  destruct (contents s records) as [|first rest] eqn:Hc.
  - unfold exportToCSV, bind, readArr in Hout. rewrite Hc in Hout.
    discriminate Hout.
  - destruct (exportToCSV_run records s first rest Hc)
      as (rows & s' & Hrun & _ & Hparse & Hexp).
    rewrite Hexp in Hout. cbn [fst] in Hout. clear Hexp.
    destruct (toISOString (newDate (timestamp first))) as [iso|] eqn:Eiso;
      [|discriminate].
    apply csvDownload_blob in Hout.
    destruct (toISOString_valid _ _ Eiso) as [t Ed]. clear Eiso.
    rewrite Ed in Hrun. rewrite rowsOfMonthOf_valid in Hrun.
    exists first, rest, (MonthFromTime (LocalTime t)),
      (YearFromTime (LocalTime t)).
    rewrite Hrun, Ed. cbn [fst].
    repeat split; assumption.
Qed.

(** X7.  The edges of [exportToCSV]: an empty array gives the alert and
    touches nothing; a first element whose timestamp is outside the range
    of [Date] ends in the RangeError of [toISOString] and nothing is
    downloaded; otherwise a file is downloaded.  In every case the arrays
    that existed, the one of the caller among them, are left as they
    were. *)
Theorem exportToCSV_outcome (records : ref) (s : Store) :
  (contents s records = [] ->
     exportToCSV records s = (CsvAlert "Sem registros para exportar.", s))
  /\ (forall first rest, contents s records = first :: rest ->
        (TimeClip (timestamp first) = None ->
           fst (exportToCSV records s) = CsvRangeError)
        /\ (TimeClip (timestamp first) <> None ->
              exists fileName blob,
                fst (exportToCSV records s) = CsvDownload fileName blob))
  /\ (forall a, (a < List.length s)%nat ->
        contents (snd (exportToCSV records s)) a = contents s a).
Proof.
  split; [|split].
  - intros Hc. unfold exportToCSV, bind, readArr. now rewrite Hc.
  - intros first rest Hc.
    destruct (exportToCSV_run records s first rest Hc)
      as (rows & s' & _ & _ & _ & Hexp).
    rewrite Hexp. cbn [fst]. unfold newDate. split.
    + intros ->. reflexivity.
    + intros Hv. destruct (TimeClip (timestamp first)); [|congruence].
      cbn [toISOString]. eauto.
  - intros a Ha.
    destruct (contents s records) as [|first rest] eqn:Hc.
    + unfold exportToCSV, bind, readArr. now rewrite Hc.
    + destruct (exportToCSV_run records s first rest Hc)
        as (rows & s' & _ & (t & ->) & _ & Hexp).
      rewrite Hexp. cbn [snd]. now apply contents_app_lt.
Qed.

End CsvFacts.

(** ** The records of the state, newest first *)

Lemma insertNewestFirst_perm (r : PunchRecord) (l : list PunchRecord) :
  Permutation (insertNewestFirst r l) (r :: l).
Proof.
  induction l as [|x l IH]; simpl; [reflexivity|].
  destruct (timestamp x <=? timestamp r); [reflexivity|].
  rewrite IH. apply perm_swap.
Qed.

Lemma sortNewestFirst_perm (l : list PunchRecord) :
  Permutation (sortNewestFirst l) l.
Proof.
  induction l as [|r l IH]; simpl; [reflexivity|].
  rewrite insertNewestFirst_perm. now constructor.
Qed.

Lemma insertNewestFirst_sorted (r : PunchRecord) (l : list PunchRecord) :
  StronglySorted tsGe l -> StronglySorted tsGe (insertNewestFirst r l).
Proof.
  induction 1 as [|x l Hl IH Hx]; simpl.
  - repeat constructor.
  - destruct (timestamp x <=? timestamp r) eqn:E.
    + apply Z.leb_le in E. constructor; [now constructor|].
      constructor; [exact E|].
      eapply Forall_impl; [|exact Hx]. unfold tsGe. intros; lia.
    + apply Z.leb_gt in E. constructor; [exact IH|].
      apply Forall_forall. intros y Hy.
      apply (Permutation_in _ (insertNewestFirst_perm r l)) in Hy.
      destruct Hy as [<-|Hy]; [unfold tsGe; lia|].
      rewrite Forall_forall in Hx. now apply Hx.
Qed.

Lemma sortNewestFirst_sorted (l : list PunchRecord) :
  StronglySorted tsGe (sortNewestFirst l).
Proof.
  induction l; simpl; [constructor|now apply insertNewestFirst_sorted].
Qed.

Lemma sortNewestFirst_of_sorted (l : list PunchRecord) :
  StronglySorted tsGe l -> sortNewestFirst l = l.
Proof.
  induction 1 as [|x l Hl IH Hx]; simpl; [reflexivity|].
  rewrite IH. destruct l as [|y l']; simpl; [reflexivity|].
  inversion Hx as [|? ? Hxy _]; subst. unfold tsGe in Hxy.
  apply Z.leb_le in Hxy. now rewrite Hxy.
Qed.

(** A record at least as new as every other goes to the front, ahead of
    the records of the same timestamp. *)
Lemma insertNewestFirst_front (r : PunchRecord) (l : list PunchRecord) :
  (forall x, In x l -> timestamp x <= timestamp r) ->
  insertNewestFirst r l = r :: l.
Proof.
  destruct l as [|x l]; simpl; [reflexivity|].
  intros H. specialize (H x (or_introl eq_refl)).
  apply Z.leb_le in H. now rewrite H.
Qed.

Lemma handlePunch_run (type : string) (idNow tsNow : Z) (prev : ref) (s : Store) :
  handlePunch type idNow tsNow prev s
  = (List.length s,
     s ++ [sortNewestFirst
             (mkPunch (numToString idNow) tsNow type None :: contents s prev)]).
Proof.
  unfold handlePunch, bind, readArr, newArr, sortDescArr.
  now rewrite contents_app_length, setNth_app_length.
Qed.

(** X8.  [handlePunch] gives [setRecords] a new array: it holds the
    records of the old state and the new record, newest first, and the
    array of the old state, like every other, is left as it was. *)
Theorem handlePunch_newest_first (type : string) (idNow tsNow : Z) (prev : ref)
  (s : Store) :
  let next := fst (handlePunch type idNow tsNow prev s) in
  let s' := snd (handlePunch type idNow tsNow prev s) in
  next = List.length s
  /\ StronglySorted tsGe (contents s' next)
  /\ Permutation (contents s' next)
                 (mkPunch (numToString idNow) tsNow type None :: contents s prev)
  /\ (forall a, (a < List.length s)%nat -> contents s' a = contents s a).
Proof.
  rewrite handlePunch_run. cbn [fst snd]. rewrite contents_app_length.
  split; [reflexivity|]. split; [apply sortNewestFirst_sorted|].
  split; [apply sortNewestFirst_perm|].
  intros a Ha. now apply contents_app_lt.
Qed.

(** X9.  When the clock has not gone back, that is when no record of the
    state is later than the new one, the new record is the first element
    of the new state, ahead even of a record of the same millisecond; and
    a state that was newest first keeps its order behind it. *)
Theorem handlePunch_latest_goes_first (type : string) (idNow tsNow : Z)
  (prev : ref) (s : Store) :
  (forall r, In r (contents s prev) -> timestamp r <= tsNow) ->
  let next := fst (handlePunch type idNow tsNow prev s) in
  let s' := snd (handlePunch type idNow tsNow prev s) in
  contents s' next
  = mkPunch (numToString idNow) tsNow type None :: sortNewestFirst (contents s prev)
  /\ (StronglySorted tsGe (contents s prev) ->
      contents s' next
      = mkPunch (numToString idNow) tsNow type None :: contents s prev).
Proof.
  intros Hle. rewrite handlePunch_run. cbn [fst snd].
  rewrite contents_app_length. cbn [sortNewestFirst].
  assert (E : insertNewestFirst (mkPunch (numToString idNow) tsNow type None)
                (sortNewestFirst (contents s prev))
              = mkPunch (numToString idNow) tsNow type None
                :: sortNewestFirst (contents s prev)).
  { apply insertNewestFirst_front. intros x Hx. cbn [timestamp].
    apply Hle. apply (Permutation_in _ (sortNewestFirst_perm _) Hx). }
  split; [exact E|].
  intros Hs. now rewrite E, (sortNewestFirst_of_sorted _ Hs).
Qed.

Lemma handlePunch_latest_goes_first_witness :
  hd_error (contents (snd (handlePunch PunchType.EXIT 1710600000000 1710600000000
                             0%nat [sortNewestFirst sampleRecords]))
                     (fst (handlePunch PunchType.EXIT 1710600000000 1710600000000
                             0%nat [sortNewestFirst sampleRecords])))
  = Some (mkPunch "1710600000000" 1710600000000 PunchType.EXIT None).
Proof.
  destruct (handlePunch_latest_goes_first PunchType.EXIT 1710600000000
              1710600000000 0%nat [sortNewestFirst sampleRecords]) as [E _].
  - intros r Hr. vm_compute in Hr.
    repeat (destruct Hr as [<-|Hr]; [vm_compute; discriminate|]). destruct Hr.
  - rewrite E. reflexivity.
Defined.

(** X10.  [handleManualEntry] alerts, and gives [setRecords] nothing,
    exactly when the date or the time is empty or the two together do not
    parse; otherwise the new state holds the old records and a record at
    the parsed time, newest first, and no existing array is written to. *)
Theorem handleManualEntry_outcome (parseDateTime : string -> option Z)
  (manualDate manualTime manualType : string) (idNow : Z) (prev : ref) (s : Store) :
  let run := handleManualEntry parseDateTime manualDate manualTime manualType
               idNow prev s in
  match fst run with
  | ManualAlert _ =>
      snd run = s
      /\ (manualDate = "" \/ manualTime = ""
          \/ parseDateTime (manualDate ++ "T" ++ manualTime)%string = None)
  | ManualSaved next =>
      manualDate <> "" /\ manualTime <> ""
      /\ next = List.length s
      /\ exists timestamp,
           parseDateTime (manualDate ++ "T" ++ manualTime)%string = Some timestamp
           /\ StronglySorted tsGe (contents (snd run) next)
           /\ Permutation (contents (snd run) next)
                (contents s prev
                 ++ [mkPunch (numToString idNow) timestamp manualType None])
           /\ (forall a, (a < List.length s)%nat ->
                 contents (snd run) a = contents s a)
  end.
Proof.
  cbv zeta. unfold handleManualEntry.
  destruct (String.eqb_spec manualDate "") as [Ed|Ed]; cbn [orb].
  { cbn. auto. }
  destruct (String.eqb_spec manualTime "") as [Et|Et]; cbn [orb].
  { cbn. auto. }
  destruct (parseDateTime (manualDate ++ "T" ++ manualTime)%string) as [t|] eqn:Ep.
  - unfold bind, readArr, newArr, sortDescArr, ret. cbn [fst snd].
    rewrite contents_app_length, setNth_app_length, contents_app_length.
    repeat split; auto.
    exists t. split; [reflexivity|].
    split; [apply sortNewestFirst_sorted|].
    split; [apply sortNewestFirst_perm|].
    intros a Ha. now apply contents_app_lt.
  - cbn. auto.
Qed.

(** ** Today *)

Section AppFacts.

Context {host : Host}.

Lemma setHoursZero_inside (t : Z) :
  keepsMidnightOnItsDay host -> insideRange t ->
  setHoursZero (newDate t) = Some (UTC (MakeDate (Day (LocalTime t)) 0)).
Proof.
  intros [Htz _] Hin. unfold insideRange in Hin.
  unfold newDate, TimeClip.
  destruct (Z.leb_spec (Z.abs t) maxTime) as [_|Hgt];
    [|unfold maxTime, msPerDay in *; lia].
  cbn [setHoursZero]. unfold TimeClip.
  destruct (Z.leb_spec (Z.abs (UTC (MakeDate (Day (LocalTime t)) 0))) maxTime)
    as [_|Hgt]; [reflexivity|].
  exfalso. unfold UTC, MakeDate, Day, LocalTime in Hgt.
  pose proof (Htz t true) as H1.
  pose proof (Htz ((t + LocalTZA t true) / msPerDay * msPerDay + 0) false) as H2.
  unfold maxTime, msPerDay in *.
  Z.div_mod_to_equations. lia.
Qed.

Lemma isToday_same_day (now : Z) (r : PunchRecord) :
  keepsMidnightOnItsDay host -> insideRange now -> insideRange (timestamp r) ->
  (isToday now r = true
   <-> Day (LocalTime (timestamp r)) = Day (LocalTime now)).
Proof.
  intros Hhost Hnow Hr. unfold isToday.
  rewrite (setHoursZero_inside _ Hhost Hnow), (setHoursZero_inside _ Hhost Hr).
  cbn [strictEq]. rewrite Z.eqb_eq. split.
  - intros E. destruct Hhost as [_ Hmid].
    rewrite <- (Hmid (Day (LocalTime (timestamp r)))),
            <- (Hmid (Day (LocalTime now))).
    now rewrite E.
  - intros E. now rewrite E.
Qed.

(** X11.  On a host that keeps midnight on its day, and away from the two
    ends of the range of [Date], [getTodayRecords] returns a new array
    with exactly the records whose local day is the local day of the
    clock, in the order they had. *)
Theorem getTodayRecords_same_local_day (now : Z) (records : ref) (s : Store) :
  keepsMidnightOnItsDay host -> insideRange now ->
  let today := fst (getTodayRecords now records s) in
  let s' := snd (getTodayRecords now records s) in
  today = List.length s
  /\ contents s' today = filter (isToday now) (contents s records)
  /\ (forall r, insideRange (timestamp r) ->
        (In r (contents s' today)
         <-> In r (contents s records)
             /\ Day (LocalTime (timestamp r)) = Day (LocalTime now))).
Proof.
  intros Hhost Hnow. unfold getTodayRecords, filterArr, bind, readArr, newArr.
  cbn [fst snd]. rewrite contents_app_length.
  split; [reflexivity|]. split; [reflexivity|].
  intros r Hr. rewrite filter_In.
  now rewrite (isToday_same_day now r Hhost Hnow Hr).
Qed.

Lemma todayStats_run (now : Z) (records : ref) (s : Store) :
  todayStats now records s
  = (dailyHours (filter (isToday now) (contents s records)),
     s ++ [sortByTimestamp (filter (isToday now) (contents s records))]).
Proof.
  unfold todayStats, getTodayRecords, filterArr, bind, readArr, newArr.
  rewrite calculateDailyHours_run, contents_app_length, setNth_app_length.
  reflexivity.
Qed.

(** X12.  [todayStats] is the daily total of the records of today, and
    computing it writes to no array that existed: the sort in place of
    [calculateDailyHours] lands on the copy made by [filter], so the state
    of the component keeps its order. *)
Theorem todayStats_keeps_state (now : Z) (records : ref) (s : Store) :
  fst (todayStats now records s)
  = dailyHours (filter (isToday now) (contents s records))
  /\ (forall a, (a < List.length s)%nat ->
        contents (snd (todayStats now records s)) a = contents s a).
Proof.
  rewrite todayStats_run. cbn [fst snd]. split; [reflexivity|].
  intros a Ha. now apply contents_app_lt.
Qed.

(** ** The reminders *)

Lemma reminderFor_inj (schedule : UserSchedule) (a b : string)
  (n : string * string) :
  reminderFor schedule a = Some n -> reminderFor schedule b = Some n -> a = b.
Proof.
  unfold reminderFor.
  destruct (String.eqb_spec a (start schedule)),
           (String.eqb_spec a (breakStart schedule)),
           (String.eqb_spec a (breakEnd schedule)),
           (String.eqb_spec a (end_ schedule)),
           (String.eqb_spec b (start schedule)),
           (String.eqb_spec b (breakStart schedule)),
           (String.eqb_spec b (breakEnd schedule)),
           (String.eqb_spec b (end_ schedule));
    intros Ha Hb; try discriminate; try congruence;
    rewrite <- Ha in Hb; discriminate.
Qed.

Lemma runTicks_cons (schedule : UserSchedule) (last : option string)
  (now : Z) (granted : bool) (rest : list (Z * bool)) :
  runTicks schedule last ((now, granted) :: rest)
  = (match fst (onTick schedule granted last now) with
     | Some n => n :: fst (runTicks schedule (snd (onTick schedule granted last now)) rest)
     | None => fst (runTicks schedule (snd (onTick schedule granted last now)) rest)
     end,
     snd (runTicks schedule (snd (onTick schedule granted last now)) rest)).
Proof.
  cbn [runTicks]. destruct (onTick schedule granted last now) as [shown last'].
  cbn [fst snd]. now destruct (runTicks schedule last' rest).
Qed.

(** Once the reference holds the minute, ticks of that minute show
    nothing and leave it there. *)
Lemma runTicks_same_minute_silent (schedule : UserSchedule) (hm : string)
  (ticks : list (Z * bool)) :
  Forall (fun tick => toLocaleTimeStringPtBR (newDate (fst tick)) = hm) ticks ->
  runTicks schedule (Some hm) ticks = ([], Some hm).
Proof.
  induction 1 as [|[now granted] rest Hhm _ IH]; [reflexivity|].
  rewrite runTicks_cons. cbn [fst] in Hhm.
  assert (E : onTick schedule granted (Some hm) now = (None, Some hm)).
  { unfold onTick. destruct (enabled schedule); [|reflexivity].
    cbv zeta. rewrite Hhm. cbn [differsFrom]. now rewrite String.eqb_refl. }
  rewrite E. cbn [fst snd]. now rewrite IH.
Qed.

(** X13.  However many times the timer ticks within one minute, and
    whatever the reference held before, at most one notification is
    shown. *)
Theorem reminders_once_per_minute (schedule : UserSchedule)
  (last : option string) (hm : string) (ticks : list (Z * bool)) :
  Forall (fun tick => toLocaleTimeStringPtBR (newDate (fst tick)) = hm) ticks ->
  (List.length (fst (runTicks schedule last ticks)) <= 1)%nat.
Proof.
  intros Hall. revert last.
  induction Hall as [|[now granted] rest Hhm Hrest IH]; intros last;
    [cbn; lia|].
  rewrite runTicks_cons. cbn [fst snd]. cbn [fst] in Hhm.
  unfold onTick. destruct (enabled schedule); [|cbn [fst snd]; apply IH].
  cbv zeta. rewrite Hhm.
  destruct (differsFrom last hm); [|cbn [fst snd]; apply IH].
  destruct (reminderFor schedule hm) as [[title body]|]; [|cbn [fst snd]; apply IH].
  cbn [fst snd]. rewrite (runTicks_same_minute_silent _ _ _ Hrest). cbn [fst].
  destruct (sendNotification granted schedule title body); cbn; lia.
Qed.

(** With the permission granted at every tick: the notifications shown
    never repeat, the first is not the reminder of the minute the
    reference held, and each is the reminder of some minute. *)
Lemma runTicks_granted (schedule : UserSchedule) (ticks : list (Z * bool)) :
  Forall (fun tick => snd tick = true) ticks ->
  forall last,
  noRepeat (fst (runTicks schedule last ticks))
  /\ (forall hm0 n, last = Some hm0 ->
        hd_error (fst (runTicks schedule last ticks)) = Some n ->
        reminderFor schedule hm0 <> Some n)
  /\ Forall (fun n => exists hm, reminderFor schedule hm = Some n)
            (fst (runTicks schedule last ticks)).
Proof.
  induction 1 as [|[now granted] rest Hg _ IH]; intros last.
  { cbn. repeat split; [discriminate|constructor]. }
  cbn [snd] in Hg. subst granted.
  rewrite runTicks_cons. unfold onTick.
  destruct (enabled schedule) eqn:En; [|cbn [fst snd]; apply IH].
  cbv zeta. set (hm := toLocaleTimeStringPtBR (newDate now)).
  destruct (differsFrom last hm) eqn:Ed; [|cbn [fst snd]; apply IH].
  destruct (reminderFor schedule hm) as [[title body]|] eqn:Er;
    [|cbn [fst snd]; apply IH].
  unfold sendNotification. rewrite En. cbn [andb fst snd].
  destruct (IH (Some hm)) as (Hnr & Hhd & Hall).
  split; [|split].
  - destruct (fst (runTicks schedule (Some hm) rest)) as [|n later] eqn:El;
      [exact I|].
    cbn [noRepeat]. split; [|exact Hnr].
    intros E. apply (Hhd hm n eq_refl eq_refl). now rewrite <- E.
  - intros hm0 n -> Hn. cbn [hd_error] in Hn. injection Hn as <-.
    intros E. rewrite (reminderFor_inj _ _ _ _ E Er) in Ed.
    cbn [differsFrom] in Ed. now rewrite String.eqb_refl in Ed.
  - constructor; [now exists hm|exact Hall].
Qed.


End AppFacts.

(** ** The callers in Brasilia *)

Section BrasiliaCallers.

Local Existing Instance brasiliaHost.

(** The entry of 09:00 of 15 March 2024 reads 15/03/2024, as does the exit
    of 18:00; the exit of 23:59 and the entry of 00:01 the next day read
    differently. *)
Lemma formatDate_day_key_witness :
  splitOn "/"%char (formatDate 1710504000000) = ["15"; "03"; "2024"]
  /\ formatDate 1710504000000 = formatDate 1710536400000
  /\ formatDate 1710557940000 <> formatDate 1710558060000.
Proof.
  split; [|split].
  - destruct (formatDate_day_key 1710504000000 1710536400000) as [E _];
      [vm_compute; discriminate ..|].
    rewrite E. vm_compute. reflexivity.
  - destruct (formatDate_day_key 1710504000000 1710536400000) as [_ E];
      [vm_compute; discriminate ..|].
    apply E. vm_compute. reflexivity.
  - destruct (formatDate_day_key 1710557940000 1710558060000) as [_ E];
      [vm_compute; discriminate ..|].
    intros H. apply E in H. vm_compute in H. discriminate.
Defined.

(** The file of the sample: March 2024, 31 rows under the headers. *)
Lemma exportToCSV_round_trip_witness :
  exists first rest m y,
    contents [sampleRecords] 0%nat = first :: rest
    /\ getMonth (newDate (timestamp first)) = Some m
    /\ getFullYear (newDate (timestamp first)) = Some y
    /\ (byteOrderMark
        ++ csvContent (fst (groupRecordsByDay 0%nat 2 2024 [sampleRecords])))%string
       = (byteOrderMark
          ++ csvContent (fst (groupRecordsByDay 0%nat m y [sampleRecords])))%string
    /\ parseCsv (csvContent (fst (groupRecordsByDay 0%nat m y [sampleRecords])))
       = csvHeaders :: map csvFields (fst (groupRecordsByDay 0%nat m y [sampleRecords])).
Proof.
  apply (exportToCSV_round_trip 0%nat [sampleRecords] "folha_ponto_2024-03.csv").
  vm_compute. reflexivity.
Defined.

(** At 18:00 of 15 March 2024 the records of today are the four of that
    day, in the order of the state. *)
Lemma getTodayRecords_same_local_day_witness :
  contents (snd (getTodayRecords 1710536400000 0%nat [sampleRecords]))
           (fst (getTodayRecords 1710536400000 0%nat [sampleRecords]))
  = firstn 4 sampleRecords.
Proof.
  destruct (getTodayRecords_same_local_day 1710536400000 0%nat [sampleRecords]
              brasiliaHost_keepsMidnight) as (_ & E & _).
  - unfold insideRange. vm_compute. discriminate.
  - rewrite E. vm_compute. reflexivity.
Defined.

(** Three ticks within 09:00, the start of the schedule: one notification. *)
Lemma reminders_once_per_minute_witness :
  (List.length (fst (runTicks sampleSchedule None ticksWithinStart)) <= 1)%nat.
Proof.
  apply (reminders_once_per_minute sampleSchedule None "09:00").
  repeat constructor.
Defined.


End BrasiliaCallers.
